(** * pooplace: palette and account pool

    A shallow embedding of [place/colors.py] and [place/user.py], and
    the properties of the palette helpers, of an account's cooldown and
    placement, and of the pool's scheduling and persistence.

    Conventions of the embedding.
    - Python integers are [Z]; [&], [|], [<<] and [>>] are [Z.land],
      [Z.lor], [Z.shiftl] and [Z.shiftr] (two's complement, unbounded).
    - Time stamps and cooldowns are Python numbers ([int] from storage,
      [float] after a division); a number is the rational [Q] it
      denotes.  The float division and the float subtraction that [put]
      performs are the operations of a [Float], which the embedding
      takes as given: their rounding and the overflow of the division
      are those of the machine, not fixed here.
    - A raised exception is a value of [result]; a method that mutates
      [self] returns the account it leaves behind next to its result,
      also when it raises.
    - [time()] is the parameter [now]: one reading per operation.
      [Pool.best_clocked] is [best] with the clock read at every call
      of [time()] instead. *)

From Stdlib Require Import ZArith QArith List String Ascii Bool Lia Lqa.
Import ListNotations.

Set Warnings "-register-all".

Local Open Scope Z_scope.

(** ** Exceptions and results *)

Module Py.

(** The text an exception is built with: a literal, or [str(v)] of a
    decoded response, kept as the value itself. *)
Inductive message (J : Type) : Type :=
| Text (s : string)
| Str (v : J).
Arguments Text {J} s.
Arguments Str {J} v.

Inductive exn (J : Type) : Type :=
| UnauthorizedError (msg : message J) (refreshable : bool)
| KeyError
| TypeError
| ValueError
| OverflowError.
Arguments UnauthorizedError {J} msg refreshable.
Arguments KeyError {J}.
Arguments TypeError {J}.
Arguments ValueError {J}.
Arguments OverflowError {J}.

(** [e.refreshable], an attribute of [UnauthorizedError] alone. *)
Definition refreshable {J} (e : exn J) : option bool :=
  match e with
  | UnauthorizedError _ r => Some r
  | _ => None
  end.

(** What a step yields: a value, an exception, or [Untyped] when the
    step would store into an attribute a value its annotation excludes
    (a token that is not a string, say): Python carries on with it, the
    typed records below cannot, and nothing is stated about such a run. *)
Inductive result (J A : Type) : Type :=
| Ok (a : A)
| Raise (e : exn J)
| Untyped.
Arguments Ok {J A} a.
Arguments Raise {J A} e.
Arguments Untyped {J A}.

Definition bind {J A B} (m : result J A) (k : A -> result J B) : result J B :=
  match m with
  | Ok a => k a
  | Raise e => Raise e
  | Untyped => Untyped
  end.

(** [a and b] on conditions that may raise: [b] is not evaluated when
    [a] is false. *)
Definition and_then {J} (a b : result J bool) : result J bool :=
  bind a (fun x => if x then b else Ok false).

(** How a loop body leaves: [return v], or on to the next turn. *)
Inductive flow (A : Type) : Type :=
| Return (v : A)
| Continue.
Arguments Return {A} v.
Arguments Continue {A}.

End Py.

Import Py.

Declare Scope py_scope.
Notation "x <- m ;; k" := (bind m (fun x => k))
  (at level 61, m at next level, right associativity) : py_scope.
Infix "&&&" := and_then (at level 40, left associativity) : py_scope.
Local Open Scope py_scope.

(** ** place/colors.py *)

Module Colors.

(** [_color_map]: palette identifier to RGB tuple.  The entry of
    identifier 1 is the empty tuple, as in the source. *)
Definition _color_map : list (Z * list Z) :=
  [ (1,  []);
    (2,  [255; 69; 0]);
    (3,  [255; 168; 0]);
    (4,  [255; 214; 53]);
    (6,  [0; 163; 104]);
    (8,  [126; 237; 86]);
    (12, [36; 80; 164]);
    (13, [54; 144; 234]);
    (14, [81; 233; 244]);
    (18, [129; 30; 159]);
    (19, [180; 74; 192]);
    (23, [255; 153; 170]);
    (25, [156; 105; 38]);
    (27, [0; 0; 0]);
    (29, [137; 141; 144]);
    (30, [212; 215; 217]);
    (31, [255; 255; 255]) ].

Definition _FLT : Z := 255.

Definition unpack (color : Z) : Z * Z * Z :=
  let r := Z.land color _FLT in
  let g := Z.land (Z.shiftr color 8) _FLT in
  let b := Z.land (Z.shiftr color 16) _FLT in
  (r, g, b).

Definition pack (r g b : Z) : Z :=
  Z.lor (Z.lor (Z.land _FLT r) (Z.shiftl (Z.land _FLT g) 8))
        (Z.shiftl (Z.land _FLT b) 16).

Inductive RedditColor : Type :=
| DARK_RED | RED | ORANGE | YELLOW | DARK_GREEN | GREEN | LIGHT_GREEN
| DARK_TEAL | TEAL | DARK_BLUE | BLUE | CYAN | INDIGO | PERIWINKLE
| DARK_PURPLE | PURPLE | PINK | LIGHT_PINK | DARK_BROWN | BROWN
| BLACK | GREY | LIGHT_GREY | WHITE.

Definition value (c : RedditColor) : Z :=
  match c with
  | DARK_RED => 1 | RED => 2 | ORANGE => 3 | YELLOW => 4
  | DARK_GREEN => 6 | GREEN => 7 | LIGHT_GREEN => 8
  | DARK_TEAL => 9 | TEAL => 10
  | DARK_BLUE => 12 | BLUE => 13 | CYAN => 14 | INDIGO => 15
  | PERIWINKLE => 16
  | DARK_PURPLE => 18 | PURPLE => 19
  | PINK => 22 | LIGHT_PINK => 23 | DARK_BROWN => 24 | BROWN => 25
  | BLACK => 27
  | GREY => 29 | LIGHT_GREY => 30 | WHITE => 31
  end.

(** The members in definition order: what [for color in cls] visits. *)
Definition members : list RedditColor :=
  [ DARK_RED; RED; ORANGE; YELLOW; DARK_GREEN; GREEN; LIGHT_GREEN;
    DARK_TEAL; TEAL; DARK_BLUE; BLUE; CYAN; INDIGO; PERIWINKLE;
    DARK_PURPLE; PURPLE; PINK; LIGHT_PINK; DARK_BROWN; BROWN;
    BLACK; GREY; LIGHT_GREY; WHITE ].

(** [RedditColor(v)]: the member of that value, [ValueError] without. *)
Definition of_value {J} (v : Z) : result J RedditColor :=
  match find (fun c => value c =? v) members with
  | Some c => Ok c
  | None => Raise ValueError
  end.

Fixpoint lookup {A} (k : Z) (m : list (Z * A)) : option A :=
  match m with
  | [] => None
  | (k', a) :: m' => if k' =? k then Some a else lookup k m'
  end.

(** [_color_map[self.value]]: [KeyError] on an identifier the map lacks. *)
Definition to_tuple {J} (c : RedditColor) : result J (list Z) :=
  match lookup (value c) _color_map with
  | Some t => Ok t
  | None => Raise KeyError
  end.

(** [cr, cg, cb = t]: [ValueError] unless [t] has three items. *)
Definition unpack3 {J} (t : list Z) : result J (Z * Z * Z) :=
  match t with
  | [cr; cg; cb] => Ok (cr, cg, cb)
  | _ => Raise ValueError
  end.

Section Closest.

(** [math.sqrt] and [<] on its results; the search is stated for any
    reading of the two. *)
Context {J F : Type}.
Variable sqrt : Z -> F.
Variable lt : F -> F -> bool.

(** One turn of the loop, on the pair [(closest_color, color_distance)];
    the two are [None] together. *)
Definition closest_step (r g b : Z) (st : option (RedditColor * F))
           (color : RedditColor) : result J (option (RedditColor * F)) :=
  t <- to_tuple color ;;
  c <- unpack3 t ;;
  let '(cr, cg, cb) := c in
  let color_diff := sqrt ((r - cr) ^ 2 + (g - cg) ^ 2 + (b - cb) ^ 2) in
  match st with
  | None => Ok (Some (color, color_diff))
  | Some (_, color_distance) =>
      if lt color_diff color_distance
      then Ok (Some (color, color_diff))
      else Ok st
  end.

Fixpoint closest_loop (r g b : Z) (st : option (RedditColor * F))
         (cs : list RedditColor) : result J (option (RedditColor * F)) :=
  match cs with
  | [] => Ok st
  | color :: cs' =>
      st' <- closest_step r g b st color ;;
      closest_loop r g b st' cs'
  end.

Definition closest (r g b : Z) : result J (option RedditColor) :=
  st <- closest_loop r g b None members ;;
  Ok (option_map fst st).

End Closest.

End Colors.

(** ** Float arithmetic

    [fdiv x d] is the float [x / d], [None] when Python raises
    [OverflowError] (an integer too large to divide into a float);
    [fsub x y] is the float [x - y]. *)
Record Float : Type := {
  fdiv : Q -> Q -> option Q;
  fsub : Q -> Q -> Q
}.

(** ** Decoded JSON, with the Python operators the code applies to it *)

Inductive json : Type :=
| JNull
| JBool (b : bool)
| JNum (q : Q)
| JStr (s : string)
| JArr (items : list json)
| JObj (fields : list (string * json)).

Module Json.

Definition res := result json.

Fixpoint assoc (k : string) (fields : list (string * json)) : option json :=
  match fields with
  | [] => None
  | (k', v) :: rest => if String.eqb k' k then Some v else assoc k rest
  end.

(** Truth value of [v] in a condition. *)
Definition truthy (v : json) : bool :=
  match v with
  | JNull => false
  | JBool b => b
  | JNum q => negb (Qeq_bool q 0)
  | JStr s => negb (String.eqb s "")
  | JArr items => match items with [] => false | _ => true end
  | JObj fields => match fields with [] => false | _ => true end
  end.

(** [v == s] for a string literal [s]. *)
Definition eq_str (v : json) (s : string) : bool :=
  match v with
  | JStr s' => String.eqb s' s
  | _ => false
  end.

Definition substring (k s : string) : bool :=
  match String.index 0 k s with
  | Some _ => true
  | None => false
  end.

(** [k in v] for a string literal [k]: a key of a dict, an item of a
    list, a substring of a string; [TypeError] on the rest. *)
Definition contains (k : string) (v : json) : res bool :=
  match v with
  | JObj fields => Ok (match assoc k fields with Some _ => true | None => false end)
  | JArr items => Ok (existsb (fun i => eq_str i k) items)
  | JStr s => Ok (substring k s)
  | _ => Raise TypeError
  end.

(** [v[k]] for a string literal [k]. *)
Definition getitem (v : json) (k : string) : res json :=
  match v with
  | JObj fields =>
      match assoc k fields with
      | Some x => Ok x
      | None => Raise KeyError
      end
  | _ => Raise TypeError
  end.

(** What [for x in v] visits: the items of a list, the keys of a dict,
    the characters of a string. *)
Definition iter (v : json) : res (list json) :=
  match v with
  | JArr items => Ok items
  | JObj fields => Ok (map (fun kv => JStr (fst kv)) fields)
  | JStr s => Ok (map (fun c => JStr (String c EmptyString)) (list_ascii_of_string s))
  | _ => Raise TypeError
  end.

(** [v / d] for a number literal [d]; [True] and [False] count as 1 and
    0; [OverflowError] when the float division overflows. *)
Definition truediv (fl : Float) (v : json) (d : Q) : res Q :=
  match v with
  | JNum q =>
      match fdiv fl q d with
      | Some r => Ok r
      | None => Raise OverflowError
      end
  | JBool b =>
      match fdiv fl (if b then 1 else 0)%Q d with
      | Some r => Ok r
      | None => Raise OverflowError
      end
  | _ => Raise TypeError
  end.

End Json.

Import Json.

Definition Qltb (a b : Q) : bool :=
  match (a ?= b)%Q with
  | Lt => true
  | _ => false
  end.

Definition Qleb (a b : Q) : bool := Qle_bool a b.

(** ** The remote service

    One decoded response per request: the placement call by bearer
    token, coordinates, colour index and canvas index; the token
    exchange by refresh token; the identity call by bearer token. *)
Record Remote : Type := {
  set_pixel : string -> Z -> Z -> Z -> Z -> json;
  access_token : string -> json;
  me : string -> json
}.

(** ** place/user.py: User *)

Module User.

Local Open Scope Q_scope.

Record t : Type := {
  id : string;
  name : string;
  token : string;
  refresh : option string;
  next : option Q
}.

Definition with_name (u : t) (n : string) : t :=
  {| id := id u; name := n; token := token u;
     refresh := refresh u; next := next u |}.

Definition with_token (u : t) (tok : string) : t :=
  {| id := id u; name := name u; token := tok;
     refresh := refresh u; next := next u |}.

Definition with_next (u : t) (q : Q) : t :=
  {| id := id u; name := name u; token := token u;
     refresh := refresh u; next := Some q |}.

(** [__init__]; [uuid] is what [str(uuid4())] gives when it is called. *)
Definition init (uuid : string) (name_ token_ : string)
           (refresh_ : option string) (next_ : option Q)
           (id_ : option string) : t :=
  {| id := match id_ with
           | Some i => if String.eqb i "" then uuid else i
           | None => uuid
           end;
     name := name_; token := token_; refresh := refresh_; next := next_ |}.

(** [x or None] on an optional string and on an optional number. *)
Definition str_or_None (x : option string) : json :=
  match x with
  | Some s => if String.eqb s "" then JNull else JStr s
  | None => JNull
  end.

Definition num_or_None (x : option Q) : json :=
  match x with
  | Some q => if Qeq_bool q 0 then JNull else JNum q
  | None => JNull
  end.

Definition as_dict (u : t) : json :=
  JObj [ ("id"%string, JStr (id u));
         ("name"%string, JStr (name u));
         ("token"%string, JStr (token u));
         ("refresh"%string, str_or_None (refresh u));
         ("next"%string, num_or_None (next u)) ].

(** [get_username]: stores the display name the identity call reports. *)
Definition get_username (srv : Remote) (u : t) : res string * t :=
  let data := me srv (token u) in
  match (s <- getitem data "subreddit" ;; getitem s "display_name_prefixed") with
  | Ok (JStr n) => (Ok n, with_name u n)
  | Ok _ => (Untyped, u)
  | Raise e => (Raise e, u)
  | Untyped => (Untyped, u)
  end.

(** [not self.refresh or self.refresh == "null"]. *)
Definition no_refresh (u : t) : bool :=
  match refresh u with
  | None => true
  | Some r => String.eqb r "" || String.eqb r "null"
  end.

Definition refresh_token (srv : Remote) (u : t) : res unit * t :=
  match refresh u with
  | None => (Raise (UnauthorizedError (Text "No refresh token") true), u)
  | Some r =>
      if String.eqb r "" || String.eqb r "null"
      then (Raise (UnauthorizedError (Text "No refresh token") true), u)
      else
        let data := access_token srv r in
        match getitem data "access_token" with
        | Ok (JStr tok) =>
            let u1 := with_token u tok in
            let '(r1, u2) := get_username srv u1 in
            (_ <- r1 ;; Ok tt, u2)
        | Ok _ => (Untyped, u)
        | Raise e => (Raise e, u)
        | Untyped => (Untyped, u)
        end
  end.

(** [self.next or 0]. *)
Definition next_or_0 (u : t) : Q :=
  match next u with
  | Some n => if Qeq_bool n 0 then 0 else n
  | None => 0
  end.

Definition cooldown (u : t) (now : Q) : Q := next_or_0 u - now.

(** The condition of the first [if] of [put]. *)
Definition unauthorized (answ : json) : res bool :=
  contains "success" answ
  &&& (s <- getitem answ "success" ;; Ok (negb (truthy s)))
  &&& contains "error" answ
  &&& (e <- getitem answ "error" ;; Ok (truthy e))
  &&& (e <- getitem answ "error" ;; contains "reason" e)
  &&& (e <- getitem answ "error" ;; r <- getitem e "reason" ;;
       Ok (eq_str r "UNAUTHORIZED")).

(** [60 * 60 * 24 * 31]. *)
Definition month : Q := inject_Z (60 * 60 * 24 * 31).

(** What follows the assignment of [self.next] in both loops:
    [if self.next and self.next - time() > month: raise ...], then
    [return ret]. *)
Definition settle (fl : Float) (now : Q) (u : t) (q : Q) (ret : bool)
  : res (flow bool) * t :=
  let u' := with_next u q in
  if negb (Qeq_bool q 0) && Qltb month (fsub fl q now)
  then (Raise (UnauthorizedError (Text "Rate limited: cooldown too long") false), u')
  else (Ok (Return ret), u').

(** [for act in answ["data"]["act"]["data"]: ...]. *)
Fixpoint put_acts (fl : Float) (now : Q) (u : t) (acts : list json)
  : res (flow bool) * t :=
  match acts with
  | [] => (Ok Continue, u)
  | act :: rest =>
      match (d <- getitem act "data" ;; contains "nextAvailablePixelTimestamp" d) with
      | Ok true =>
          match (d <- getitem act "data" ;;
                 ts <- getitem d "nextAvailablePixelTimestamp" ;;
                 truediv fl ts 1000) with
          | Ok q => settle fl now u q true
          | Raise e => (Raise e, u)
          | Untyped => (Untyped, u)
          end
      | Ok false => put_acts fl now u rest
      | Raise e => (Raise e, u)
      | Untyped => (Untyped, u)
      end
  end.

(** [for err in answ['errors']: ...]. *)
Fixpoint put_errs (fl : Float) (now : Q) (u : t) (errs : list json)
  : res (flow bool) * t :=
  match errs with
  | [] => (Ok Continue, u)
  | err :: rest =>
      match (contains "extensions" err
             &&& (x <- getitem err "extensions" ;;
                  contains "nextAvailablePixelTs" x)) with
      | Ok true =>
          match (x <- getitem err "extensions" ;;
                 ts <- getitem x "nextAvailablePixelTs" ;;
                 truediv fl ts 1000) with
          | Ok q => settle fl now u q false
          | Raise e => (Raise e, u)
          | Untyped => (Untyped, u)
          end
      | Ok false => put_errs fl now u rest
      | Raise e => (Raise e, u)
      | Untyped => (Untyped, u)
      end
  end.

(** [if "data" in answ and answ['data']: for ...]. *)
Definition put_data (fl : Float) (now : Q) (u : t) (answ : json)
  : res (flow bool) * t :=
  match (contains "data" answ &&& (d <- getitem answ "data" ;; Ok (truthy d))) with
  | Ok true =>
      match (d <- getitem answ "data" ;; a <- getitem d "act" ;;
             l <- getitem a "data" ;; iter l) with
      | Ok acts => put_acts fl now u acts
      | Raise e => (Raise e, u)
      | Untyped => (Untyped, u)
      end
  | Ok false => (Ok Continue, u)
  | Raise e => (Raise e, u)
  | Untyped => (Untyped, u)
  end.

(** [if "errors" in answ and answ['errors']: for ...]. *)
Definition put_errors (fl : Float) (now : Q) (u : t) (answ : json)
  : res (flow bool) * t :=
  match (contains "errors" answ &&& (d <- getitem answ "errors" ;; Ok (truthy d))) with
  | Ok true =>
      match (l <- getitem answ "errors" ;; iter l) with
      | Ok errs => put_errs fl now u errs
      | Raise e => (Raise e, u)
      | Untyped => (Untyped, u)
      end
  | Ok false => (Ok Continue, u)
  | Raise e => (Raise e, u)
  | Untyped => (Untyped, u)
  end.

(** [put]: [Ok None] is the run that reaches the end of the body
    without a [return]. *)
Definition put (fl : Float) (srv : Remote) (now : Q) (u : t) (color x y : Z)
  : res (option bool) * t :=
  match Colors.of_value (J := json) color with
  | Raise e => (Raise e, u)
  | Untyped => (Untyped, u)
  | Ok _ =>
      let answ := set_pixel srv (token u) x y color 0%Z in
      match unauthorized answ with
      | Raise e => (Raise e, u)
      | Untyped => (Untyped, u)
      | Ok true => (Raise (UnauthorizedError (Str answ) true), u)
      | Ok false =>
          match put_data fl now u answ with
          | (Ok (Return b), u') => (Ok (Some b), u')
          | (Raise e, u') => (Raise e, u')
          | (Untyped, u') => (Untyped, u')
          | (Ok Continue, u') =>
              match put_errors fl now u' answ with
              | (Ok (Return b), u'') => (Ok (Some b), u'')
              | (Raise e, u'') => (Raise e, u'')
              | (Untyped, u'') => (Untyped, u'')
              | (Ok Continue, u'') => (Ok None, u'')
              end
          end
      end
  end.

End User.

(** ** place/user.py: Pool *)

Module Pool.

Local Open Scope Q_scope.

(** [self.users]. *)
Definition t : Type := list User.t.

(** The five arguments [__init__] passes to [User] for one stored
    record, [None] as [JNull]. *)
Definition init_args (el : json) : res (json * json * json * json * json) :=
  n <- getitem el "name" ;;
  tok <- getitem el "token" ;;
  r <- (keep <- contains "refresh" el
                &&& (v <- getitem el "refresh" ;; Ok (negb (eq_str v "null"))) ;;
        if keep then getitem el "refresh" else Ok JNull) ;;
  nx <- (keep <- contains "next" el
                 &&& (v <- getitem el "next" ;; Ok (negb (eq_str v "null"))) ;;
         if keep then getitem el "next" else Ok JNull) ;;
  i <- (has <- contains "id" el ;;
        if has then getitem el "id" else Ok JNull) ;;
  Ok (n, tok, r, nx, i).

(** The arguments as the annotations of [User] type them. *)
Definition as_str (v : json) : res string :=
  match v with
  | JStr s => Ok s
  | _ => Untyped
  end.

Definition as_opt_str (v : json) : res (option string) :=
  match v with
  | JNull => Ok None
  | JStr s => Ok (Some s)
  | _ => Untyped
  end.

Definition as_opt_num (v : json) : res (option Q) :=
  match v with
  | JNull => Ok None
  | JNum q => Ok (Some q)
  | _ => Untyped
  end.

(** [id or str(uuid4())] calls [uuid4] on a missing or empty [id]. *)
Definition calls_uuid4 (id_ : option string) : bool :=
  match id_ with
  | Some i => String.eqb i ""
  | None => true
  end.

(** [for el in data: self.users.append(User(...))]; [uuid4 k] is the
    result of the [k]-th call of [uuid4]. *)
Fixpoint load (uuid4 : nat -> string) (k : nat) (els : list json) : res t :=
  match els with
  | [] => Ok []
  | el :: rest =>
      a <- init_args el ;;
      let '(n, tok, r, nx, i) := a in
      name_ <- as_str n ;;
      token_ <- as_str tok ;;
      refresh_ <- as_opt_str r ;;
      next_ <- as_opt_num nx ;;
      id_ <- as_opt_str i ;;
      let u := User.init (uuid4 k) name_ token_ refresh_ next_ id_ in
      us <- load uuid4 (if calls_uuid4 id_ then S k else k) rest ;;
      Ok (u :: us)
  end.

(** [__init__]; [storage] is the decoded content of the file, [None]
    when the path is not a file. *)
Definition init (uuid4 : nat -> string) (storage : option json) : res t :=
  match storage with
  | None => Ok []
  | Some data => els <- iter data ;; load uuid4 0 els
  end.

(** [serialize]: the document [json.dump] writes. *)
Definition serialize (users : t) : json :=
  JArr (map User.as_dict users).

Definition is_ready (now : Q) (u : User.t) : bool :=
  Qleb (User.cooldown u now) 0.

Definition any (users : t) (now : Q) : bool :=
  existsb (is_ready now) users.

Definition ready (users : t) (now : Q) : Z :=
  fold_left Z.add (map (fun _ => 1%Z) (filter (is_ready now) users)) 0%Z.

(** One turn of the loop of [best], on the pair [(cd, usr)]. *)
Definition best_step (now : Q) (st : option Q * option User.t) (u : User.t)
  : option Q * option User.t :=
  match fst st with
  | None => (Some (User.cooldown u now), Some u)
  | Some cd =>
      if Qltb (User.cooldown u now) cd
      then (Some (User.cooldown u now), Some u)
      else st
  end.

Definition best (users : t) (now : Q) : option User.t :=
  snd (fold_left (best_step now) users (None, None)).

(** [put]: the pool it leaves holds the account the call went to as
    that call left it.  [color] is the integer index that [User.put]
    formats into the payload. *)
Fixpoint put (fl : Float) (srv : Remote) (now : Q) (users : t)
         (color x y : Z) : res bool * t :=
  match users with
  | [] => (Ok false, [])
  | u :: rest =>
      if is_ready now u
      then
        let '(r, u') := User.put fl srv now u color x y in
        (_ <- r ;; Ok true, u' :: rest)
      else
        let '(r, rest') := put fl srv now rest color x y in
        (r, u :: rest')
  end.

(** [best] with the clock read at every [u.cooldown]: [clock k] is
    what the [k]-th call of [time()] during the loop returns.  The test
    [cd is None or u.cooldown < cd] reads the clock unless [cd] is
    [None]; the assignment [cd = u.cooldown] reads it once more. *)
Definition best_step_clocked (clock : nat -> Q)
           (st : option Q * option User.t * nat) (u : User.t)
  : option Q * option User.t * nat :=
  let '(cd, usr, k) := st in
  match cd with
  | None => (Some (User.cooldown u (clock k)), Some u, S k)
  | Some c =>
      if Qltb (User.cooldown u (clock k)) c
      then (Some (User.cooldown u (clock (S k))), Some u, S (S k))
      else (cd, usr, S k)
  end.

Definition best_clocked (clock : nat -> Q) (users : t) : option User.t :=
  snd (fst (fold_left (best_step_clocked clock) users (None, None, 0%nat))).

End Pool.

(** ** Response shapes of the placement call *)

Module Shapes.

(** A success envelope whose first act carries the next time stamp
    [ms], in milliseconds. *)
Definition success_envelope (ms : Q) (rest : list json) : json :=
  JObj [ ("data"%string,
          JObj [ ("act"%string,
                  JObj [ ("data"%string,
                          JArr (JObj [ ("data"%string,
                                        JObj [ ("nextAvailablePixelTimestamp"%string,
                                                JNum ms) ]) ]
                                :: rest)) ]) ]) ].

(** An errors envelope whose first entry carries the next time stamp
    [ms] in its extensions. *)
Definition errors_envelope (ms : Q) (rest : list json) : json :=
  JObj [ ("errors"%string,
          JArr (JObj [ ("extensions"%string,
                        JObj [ ("nextAvailablePixelTs"%string, JNum ms) ]) ]
                :: rest)) ].

Definition unauthorized_envelope : json :=
  JObj [ ("success"%string, JBool false);
         ("error"%string, JObj [ ("reason"%string, JStr "UNAUTHORIZED") ]) ].

(** An act whose data holds no next time stamp. *)
Definition act_silent (act : json) : bool :=
  match act with
  | JObj fields =>
      match assoc "data" fields with
      | Some (JObj d) =>
          match assoc "nextAvailablePixelTimestamp" d with
          | None => true
          | Some _ => false
          end
      | _ => false
      end
  | _ => false
  end.

(** An error entry without extensions, or whose extensions hold no
    next time stamp. *)
Definition err_silent (err : json) : bool :=
  match err with
  | JObj fields =>
      match assoc "extensions" fields with
      | None => true
      | Some (JObj x) =>
          match assoc "nextAvailablePixelTs" x with
          | None => true
          | Some _ => false
          end
      | Some _ => false
      end
  | _ => false
  end.

(** Every entry of the list, if there is a list, passes [f]. *)
Definition silent (f : json -> bool) (l : option (list json)) : bool :=
  match l with
  | Some entries => forallb f entries
  | None => true
  end.

(** A response with no [success] key, whose data envelope (if any) lists
    [acts] and whose errors (if any) are [errs]. *)
Definition quiet_response (acts errs : option (list json)) : json :=
  JObj (match acts with
        | Some a =>
            [ ("data"%string,
               JObj [ ("act"%string, JObj [ ("data"%string, JArr a) ]) ]) ]
        | None => []
        end ++
        match errs with
        | Some e => [ ("errors"%string, JArr e) ]
        | None => []
        end).

(** The acts the data envelope of a response lists: none when the
    response has no [data] or a false one; no answer for a document
    whose [data] is not [{"act": {"data": [...]}}] with whatever other
    keys beside them. *)
Definition acts_of (answ : json) : option (list json) :=
  match answ with
  | JObj top =>
      match assoc "data" top with
      | None => Some []
      | Some d =>
          if truthy d
          then match d with
               | JObj dfs =>
                   match assoc "act" dfs with
                   | Some (JObj afs) =>
                       match assoc "data" afs with
                       | Some (JArr acts) => Some acts
                       | _ => None
                       end
                   | _ => None
                   end
               | _ => None
               end
          else Some []
      end
  | _ => None
  end.

(** The errors a response lists: none when it has no [errors] or a
    false one; no answer when [errors] is not a list. *)
Definition errs_of (answ : json) : option (list json) :=
  match answ with
  | JObj top =>
      match assoc "errors" top with
      | None => Some []
      | Some (JArr errs) => Some errs
      | Some e => if truthy e then None else Some []
      end
  | _ => None
  end.

(** The next time stamp an act carries in its data. *)
Definition act_carries (act : json) : option json :=
  match act with
  | JObj fields =>
      match assoc "data" fields with
      | Some (JObj d) => assoc "nextAvailablePixelTimestamp" d
      | _ => None
      end
  | _ => None
  end.

(** The next time stamp an error carries in its extensions. *)
Definition err_carries (err : json) : option json :=
  match err with
  | JObj fields =>
      match assoc "extensions" fields with
      | Some (JObj x) => assoc "nextAvailablePixelTs" x
      | _ => None
      end
  | _ => None
  end.

End Shapes.

(** ** Persistence as the specification words it *)

Module Stored.

(** The ["null"] sentinel read as absent, nothing else changed: the
    account the specification expects back from a save and a load.  A
    [next] of the typed record is a number or absent, never the
    sentinel. *)
Definition null_to_absent (u : User.t) : User.t :=
  {| User.id := User.id u; User.name := User.name u;
     User.token := User.token u;
     User.refresh := match User.refresh u with
                     | Some r => if String.eqb r "null" then None else Some r
                     | None => None
                     end;
     User.next := User.next u |}.

(** The account with every empty value read as absent as well: an empty
    or ["null"] refresh token, a zero [next]. *)
Definition falsy_to_absent (u : User.t) : User.t :=
  {| User.id := User.id u; User.name := User.name u;
     User.token := User.token u;
     User.refresh := if User.no_refresh u then None else User.refresh u;
     User.next := match User.next u with
                  | Some q => if Qeq_bool q 0 then None else Some q
                  | None => None
                  end |}.

End Stored.

(** ** Sample accounts and a sample service *)

Module Sample.

Local Open Scope Q_scope.
Local Open Scope string_scope.

Definition account (n : string) (r : option string) (nx : option Q) : User.t :=
  {| User.id := "id-" ++ n; User.name := n; User.token := "tok-" ++ n;
     User.refresh := r; User.next := nx |}.

(** At time 100 the cooldowns of the three are -5, 10 and 0. *)
Definition alice : User.t := account "alice" None (Some 95).
Definition bob : User.t := account "bob" (Some "null") (Some 110).
Definition carol : User.t := account "carol" (Some "r-carol") (Some 100).

(** Ready at time 100, [dave] before [alice] but with the longer
    cooldown of the two. *)
Definition dave : User.t := account "dave" None None.

(** 40 days, in milliseconds. *)
Definition far : Q := inject_Z (40 * 24 * 60 * 60 * 1000).

(** A service that answers [alice] with a new cooldown, [carol] with a
    refusal that carries one, [dave] with a cooldown 40 days ahead, and
    anyone else with [UNAUTHORIZED]. *)
Definition service : Remote :=
  {| set_pixel := fun tok _ _ _ _ =>
       if String.eqb tok "tok-alice"
       then Shapes.success_envelope 400000 []
       else if String.eqb tok "tok-carol"
       then Shapes.errors_envelope 400000 []
       else if String.eqb tok "tok-dave"
       then Shapes.success_envelope far []
       else Shapes.unauthorized_envelope;
     access_token := fun _ => JObj [ ("access_token", JStr "fresh") ];
     me := fun _ =>
       JObj [ ("subreddit", JObj [ ("display_name_prefixed", JStr "u/x") ]) ] |}.

(** A service whose every answer is the empty object. *)
Definition mute : Remote :=
  {| set_pixel := fun _ _ _ _ _ => JObj [];
     access_token := fun _ => JObj [];
     me := fun _ => JObj [] |}.

(** A service that answers with acts and errors, none of which carries
    a next time stamp. *)
Definition quiet_acts : option (list json) :=
  Some [ JObj [ ("data", JObj [ ("timestamp", JNum 1) ]) ] ].

Definition quiet_errs : option (list json) :=
  Some [ JObj [ ("message", JStr "Ratelimited") ];
         JObj [ ("extensions", JObj []) ] ].

Definition hush : Remote :=
  {| set_pixel := fun _ _ _ _ _ => Shapes.quiet_response quiet_acts quiet_errs;
     access_token := fun _ => JNull;
     me := fun _ => JNull |}.

(** An account whose [next] is the number 0. *)
Definition zed : User.t := account "zed" (Some "r-zed") (Some 0).

Definition uuids (k : nat) : string := "uuid".

(** Two accounts with the same [next]. *)
Definition twin1 : User.t := account "twin1" None (Some 100).
Definition twin2 : User.t := account "twin2" None (Some 100).

(** A clock that stands still at 100, and one that advances by a
    second at every reading. *)
Definition still (k : nat) : Q := 100.
Definition ticking (k : nat) : Q := inject_Z (Z.of_nat k).

(** Float arithmetic without rounding and without overflow: what the
    machine computes on the sample time stamps, which are whole numbers
    of seconds far below 2^53. *)
Definition exact : Float :=
  {| fdiv := fun x d => Some (x / d); fsub := fun x y => x - y |}.

(** A stored record with an empty [id] and a zero [next], and the
    account a load with [uuids] builds from it. *)
Definition eve_records : list json :=
  [ JObj [ ("name", JStr "eve"); ("token", JStr "t");
           ("id", JStr ""); ("next", JNum 0) ] ].

Definition eve : User.t :=
  {| User.id := "uuid"; User.name := "eve"; User.token := "t";
     User.refresh := None; User.next := Some 0 |}.

(** An act that carries the next time stamp [ms]. *)
Definition carrier (ms : Q) : json :=
  JObj [ ("data", JObj [ ("nextAvailablePixelTimestamp", JNum ms) ]) ].

(** An [UNAUTHORIZED] answer that also holds a data envelope with a
    cooldown. *)
Definition refusal_fields : list (string * json) :=
  [ ("data", JObj [ ("act", JObj [ ("data", JArr [ carrier 400000 ]) ]) ]);
    ("success", JBool false);
    ("error", JObj [ ("reason", JStr "UNAUTHORIZED") ]) ].

(** A data envelope without [act], beside an error with a cooldown. *)
Definition actless_fields : list (string * json) :=
  [ ("data", JObj [ ("id", JStr "x") ]);
    ("errors",
     JArr [ JObj [ ("extensions",
                    JObj [ ("nextAvailablePixelTs", JNum 400000) ]) ] ]) ].



(** A refusal as the service words it: a null data envelope beside
    errors, the first without extensions, the second with a cooldown. *)
Definition refused_pre : list json :=
  [ JObj [ ("message", JStr "unexpected") ] ].

Definition refused_err : json :=
  JObj [ ("message", JStr "Ratelimited");
         ("extensions", JObj [ ("nextAvailablePixelTs", JNum 400000) ]) ].

Definition refused_fields : list (string * json) :=
  [ ("errors", JArr (refused_pre ++ [refused_err]));
    ("data", JNull) ].

(** The service that gives the same answer to every placement. *)
Definition always (answ : json) : Remote :=
  {| set_pixel := fun _ _ _ _ _ => answ;
     access_token := fun _ => JNull;
     me := fun _ => JNull |}.

(** The token exchange of [service], with an identity call that
    answers the empty object. *)
Definition nameless : Remote :=
  {| set_pixel := set_pixel service;
     access_token := access_token service;
     me := me mute |}.

End Sample.

(** ** The palette entries the search can use *)

Module Search.

Import Colors.

(** The three channels of a member, when [_color_map] holds a tuple of
    three for it. *)
Definition channels (c : RedditColor) : option (Z * Z * Z) :=
  match lookup (value c) _color_map with
  | Some [cr; cg; cb] => Some (cr, cg, cb)
  | _ => None
  end.

(** The square of the distance [closest] takes the root of. *)
Definition dist2 (r g b : Z) (c : RedditColor) : Z :=
  match channels c with
  | Some (cr, cg, cb) => (r - cr) ^ 2 + (g - cg) ^ 2 + (b - cb) ^ 2
  | None => 0
  end.

End Search.

(** ** place/user.py: Pool, the operations that write the storage file *)

Module PoolFile.

(** The files by path: the decoded content of a file, [None] where the
    path is not a file. *)
Definition fs : Type := string -> option json.

(** [with open(path, "w") as f: json.dump(doc, f, ...)]. *)
Definition write (files : fs) (path : string) (doc : json) : fs :=
  fun p => if String.eqb p path then Some doc else files p.

(** The default of the [storage] argument. *)
Definition default_storage : string := "pool.json".

(** [Pool(storage)]. *)
Definition open (uuid4 : nat -> string) (files : fs) (storage : string)
  : res Pool.t :=
  Pool.init uuid4 (files storage).

(** [serialize(storage)]. *)
Definition serialize (users : Pool.t) (storage : string) (files : fs) : fs :=
  write files storage (Pool.serialize users).

(** [add_user]: appends, then [self.serialize()] with no argument. *)
Definition add_user (users : Pool.t) (u : User.t) (files : fs) : Pool.t * fs :=
  let users' := users ++ [u] in
  (users', serialize users' default_storage files).

(** [remove_user]: keeps the accounts of another name, then
    [self.serialize()] with no argument. *)
Definition remove_user (users : Pool.t) (n : string) (files : fs) : Pool.t * fs :=
  let users' := filter (fun u => negb (String.eqb (User.name u) n)) users in
  (users', serialize users' default_storage files).

End PoolFile.

(** ** What a placement may leave behind *)

Module Outcome.

Local Open Scope Q_scope.

(** A decoding step went through, or failed on the shape of the
    response or on the size of a number: with [KeyError], [TypeError]
    or [OverflowError] and nothing else. *)
Definition decoding {A} (m : res A) : Prop :=
  match m with
  | Ok _ => True
  | Raise e => e = KeyError \/ e = TypeError \/ e = OverflowError
  | Untyped => False
  end.

(** The exception of a cooldown beyond 31 days. *)
Definition rate_limited : exn json :=
  UnauthorizedError (Text "Rate limited: cooldown too long") false.

(** The ways one of the two loops of [put] can end, from account [u] at
    time [now]: past its last entry with the account untouched; on a
    [return] with [next] set; on the exception of a cooldown beyond 31
    days with [next] set to a time whose float distance from [now] is
    more than 31 days; or on a decoding failure with the account
    untouched. *)
Definition of_loop (fl : Float) (now : Q) (u : User.t)
           (R : res (flow bool) * User.t) : Prop :=
  R = (Ok Continue, u) \/
  (exists b q, R = (Ok (Return b), User.with_next u q)) \/
  (exists q, R = (Raise rate_limited, User.with_next u q) /\
             User.month < fsub fl q now) \/
  (exists e, R = (Raise e, u) /\
             (e = KeyError \/ e = TypeError \/ e = OverflowError)).

End Outcome.

(** * Properties *)

(** ** Palette *)

Section PaletteFacts.

Import Colors.

Lemma land_FLT_l (x : Z) : Z.land _FLT x = x mod 2 ^ 8.
Proof.
  unfold _FLT. change 255 with (Z.ones 8).
  rewrite Z.land_comm. apply Z.land_ones. lia.
Qed.

Lemma land_FLT_r (x : Z) : Z.land x _FLT = x mod 2 ^ 8.
Proof. rewrite Z.land_comm. apply land_FLT_l. Qed.

(** Bytes that do not overlap are added by [|]. *)
Lemma lor_shiftl_add (a b n : Z) :
  0 <= n -> 0 <= a < 2 ^ n -> Z.lor a (Z.shiftl b n) = a + b * 2 ^ n.
Proof.
  intros Hn Ha.
  assert (Hdisj : Z.land a (Z.shiftl b n) = 0).
  { apply Z.bits_inj'. intros i Hi.
    rewrite Z.land_spec, Z.bits_0.
    destruct (Z.lt_ge_cases i n) as [Hlt | Hge].
    - rewrite Z.shiftl_spec_low by assumption. apply andb_false_r.
    - rewrite <- (Z.mod_small a (2 ^ n)) by assumption.
      rewrite Z.mod_pow2_bits_high by lia. reflexivity. }
  rewrite <- Z.lxor_lor by assumption.
  rewrite <- Z.add_nocarry_lxor by assumption.
  rewrite Z.shiftl_mul_pow2 by assumption. reflexivity.
Qed.

Lemma pack_layout (r g b : Z) :
  pack r g b = r mod 2 ^ 8 + (g mod 2 ^ 8) * 2 ^ 8 + (b mod 2 ^ 8) * 2 ^ 16.
Proof.
  unfold pack. rewrite !land_FLT_l.
  pose proof (Z.mod_pos_bound r (2 ^ 8) ltac:(lia)) as Hr.
  pose proof (Z.mod_pos_bound g (2 ^ 8) ltac:(lia)) as Hg.
  rewrite (lor_shiftl_add (r mod 2 ^ 8)) by lia.
  rewrite lor_shiftl_add by lia. reflexivity.
Qed.

Lemma unpack_pack_mod (r g b : Z) :
  unpack (pack r g b) = (r mod 2 ^ 8, g mod 2 ^ 8, b mod 2 ^ 8).
Proof.
  unfold unpack. rewrite !land_FLT_r, !Z.shiftr_div_pow2 by lia.
  rewrite pack_layout.
  pose proof (Z.mod_pos_bound r (2 ^ 8) ltac:(lia)) as Hr.
  pose proof (Z.mod_pos_bound g (2 ^ 8) ltac:(lia)) as Hg.
  pose proof (Z.mod_pos_bound b (2 ^ 8) ltac:(lia)) as Hb.
  set (r' := r mod 2 ^ 8) in *. set (g' := g mod 2 ^ 8) in *.
  set (b' := b mod 2 ^ 8) in *.
  change (2 ^ 8) with 256 in *. change (2 ^ 16) with 65536 in *.
  repeat f_equal; Z.div_mod_to_equations; lia.
Qed.

(** C2: on channels in 0..255 [unpack] undoes [pack]; [pack] puts red in
    the low byte, green in the middle byte and blue in the high byte; and
    every channel is cut to its low eight bits, so [pack (256+5) 0 0] is
    [pack 5 0 0]. *)
Theorem pack_unpack_roundtrip (r g b : Z)
  (Hr : 0 <= r <= 255) (Hg : 0 <= g <= 255) (Hb : 0 <= b <= 255) :
  unpack (pack r g b) = (r, g, b) /\
  pack r g b = r + g * 2 ^ 8 + b * 2 ^ 16 /\
  (forall r' g' b' : Z,
      pack r' g' b' = pack (r' mod 2 ^ 8) (g' mod 2 ^ 8) (b' mod 2 ^ 8)) /\
  pack (256 + 5) 0 0 = pack 5 0 0.
Proof.
  assert (Hsmall : forall v, 0 <= v <= 255 -> v mod 2 ^ 8 = v)
    by (intros v Hv; apply Z.mod_small; lia).
  repeat split.
  - rewrite unpack_pack_mod, !Hsmall by assumption. reflexivity.
  - rewrite pack_layout, !Hsmall by assumption. reflexivity.
  - intros r' g' b'. rewrite !pack_layout, !Z.mod_mod by lia. reflexivity.
Qed.

Lemma pack_unpack_roundtrip_witness :
  unpack (pack 255 69 0) = (255, 69, 0) /\
  pack 255 69 0 = 255 + 69 * 2 ^ 8 + 0 * 2 ^ 16 /\
  (forall r' g' b' : Z,
      pack r' g' b' = pack (r' mod 2 ^ 8) (g' mod 2 ^ 8) (b' mod 2 ^ 8)) /\
  pack (256 + 5) 0 0 = pack 5 0 0.
Proof. apply (pack_unpack_roundtrip 255 69 0); lia. Defined.

(** C1 (as the code runs): the first member the search visits is
    [DARK_RED], whose entry in [_color_map] is the empty tuple, so the
    unpacking into three channels raises [ValueError] for every input,
    whatever [math.sqrt] and [<] compute; no entry is returned, [BLACK]
    for [(0, 0, 0)] included. *)
Theorem closest_raises_ValueError (F : Type) (sqrt : Z -> F) (lt : F -> F -> bool)
  (r g b : Z) :
  closest (J := json) sqrt lt r g b = Raise ValueError /\
  closest (J := json) sqrt lt 0 0 0 <> Ok (Some BLACK) /\
  to_tuple (J := json) DARK_RED = Ok [] /\
  to_tuple (J := json) GREEN = Raise KeyError.
Proof. repeat split; discriminate. Qed.

End PaletteFacts.

(** ** Cooldown and scheduling *)

Section Scheduling.

Local Open Scope Q_scope.

Lemma Qltb_lt (a b : Q) : Qltb a b = true <-> a < b.
Proof.
  unfold Qltb. rewrite Qlt_alt.
  destruct (a ?= b); split; congruence.
Qed.

Lemma Qltb_ge (a b : Q) : Qltb a b = false <-> b <= a.
Proof.
  split; intros H.
  - apply Qnot_lt_le. intros Hlt. apply Qltb_lt in Hlt. congruence.
  - destruct (Qltb a b) eqn:E; [| reflexivity].
    apply Qltb_lt in E. exfalso. apply (Qlt_not_le _ _ E H).
Qed.

Lemma Qleb_le (a b : Q) : Qleb a b = true <-> a <= b.
Proof. apply Qle_bool_iff. Qed.

Lemma Qleb_gt (a b : Q) : Qleb a b = false <-> b < a.
Proof.
  split; intros H.
  - apply Qnot_le_lt. intros Hle. apply Qleb_le in Hle. congruence.
  - destruct (Qleb a b) eqn:E; [| reflexivity].
    apply Qleb_le in E. exfalso. apply (Qlt_not_le _ _ H E).
Qed.

Lemma next_or_0_eq (u : User.t) :
  User.next_or_0 u == match User.next u with Some n => n | None => 0 end.
Proof.
  unfold User.next_or_0. destruct (User.next u) as [n |]; [| reflexivity].
  destruct (Qeq_bool n 0) eqn:E; [| reflexivity].
  apply Qeq_bool_iff in E. symmetry. exact E.
Qed.

(** C7: the cooldown of an account at time [now] is its [next] minus
    [now], an absent [next] counting as 0; it is at most 0 exactly when
    [next] (or 0) is not after [now], and it is negative for an account
    whose [next] has passed. *)
Theorem cooldown_is_next_minus_now (u : User.t) (now : Q) :
  User.cooldown u now
    == (match User.next u with Some n => n | None => 0 end) - now /\
  (forall i n tok r,
      User.cooldown
        {| User.id := i; User.name := n; User.token := tok;
           User.refresh := r; User.next := None |} now = 0 - now) /\
  (User.cooldown u now <= 0
     <-> (match User.next u with Some n => n | None => 0 end) <= now) /\
  User.cooldown Sample.alice 100 == - (5) /\
  User.cooldown Sample.dave 100 < 0.
Proof.
  assert (H : User.cooldown u now
              == (match User.next u with Some n => n | None => 0 end) - now).
  { unfold User.cooldown. rewrite next_or_0_eq. reflexivity. }
  split; [exact H |]. split; [reflexivity |]. split.
  - rewrite H. split; intros; lra.
  - split; reflexivity.
Qed.

Lemma any_spec (users : Pool.t) (now : Q) :
  Pool.any users now = true
  <-> exists u, In u users /\ User.cooldown u now <= 0.
Proof.
  unfold Pool.any. rewrite existsb_exists.
  split; intros [u [Hin Hu]]; exists u; split; auto;
    apply Qleb_le; exact Hu.
Qed.

Lemma fold_add_ones (l : list Z) (acc : Z) :
  Forall (fun z => z = 1%Z) l ->
  fold_left Z.add l acc = (acc + Z.of_nat (List.length l))%Z.
Proof.
  intros H. revert acc.
  induction H as [| z l Hz _ IH]; intros acc; simpl.
  - lia.
  - rewrite IH. subst z. lia.
Qed.

Lemma ready_spec (users : Pool.t) (now : Q) :
  Pool.ready users now
  = Z.of_nat (List.length (filter (fun u => Qle_bool (User.cooldown u now) 0) users)).
Proof.
  unfold Pool.ready. rewrite fold_add_ones.
  - rewrite length_map. reflexivity.
  - apply Forall_forall. intros z Hz.
    apply in_map_iff in Hz. destruct Hz as [_ [Hz _]]. auto.
Qed.

(** The loop of [best], started on an account already chosen: the
    account it ends on is the chosen one or a later one, and no account
    visited has a shorter cooldown. *)
Lemma best_loop_min (now : Q) (users : Pool.t) (b : User.t) :
  exists b',
    snd (fold_left (Pool.best_step now) users
           (Some (User.cooldown b now), Some b)) = Some b' /\
    (b' = b \/ In b' users) /\
    User.cooldown b' now <= User.cooldown b now /\
    forall u, In u users -> User.cooldown b' now <= User.cooldown u now.
Proof.
  revert b. induction users as [| v users IH]; intros b; simpl.
  - exists b. repeat split; auto using Qle_refl. intros u [].
  - unfold Pool.best_step at 2. simpl.
    destruct (Qltb (User.cooldown v now) (User.cooldown b now)) eqn:E.
    + apply Qltb_lt in E.
      destruct (IH v) as [b' [Hb' [Hin [Hle Hmin]]]].
      exists b'. split; [exact Hb' |]. split; [| split].
      * right. destruct Hin as [-> | Hin]; [left | right]; auto.
      * apply Qlt_le_weak in E. eapply Qle_trans; eauto.
      * intros u [<- | Hu]; auto.
    + apply Qltb_ge in E.
      destruct (IH b) as [b' [Hb' [Hin [Hle Hmin]]]].
      exists b'. split; [exact Hb' |]. split; [| split].
      * destruct Hin as [-> | Hin]; [left | right; right]; auto.
      * exact Hle.
      * intros u [<- | Hu]; auto. eapply Qle_trans; eauto.
Qed.

(** C6: [any] holds exactly when some account has a cooldown of at most
    0; [ready] is the number of such accounts; [best] is [None] on the
    empty pool and otherwise an account of the pool that no account
    undercuts; on cooldowns -5, 10 and 0 they give true, 2 and the
    account at -5. *)
Theorem pool_any_ready_best (users : Pool.t) (now : Q) :
  (Pool.any users now = true
   <-> exists u, In u users /\ User.cooldown u now <= 0) /\
  Pool.ready users now
  = Z.of_nat (List.length (filter (fun u => Qle_bool (User.cooldown u now) 0) users)) /\
  match Pool.best users now with
  | None => users = []
  | Some b =>
      In b users /\
      forall u, In u users -> User.cooldown b now <= User.cooldown u now
  end /\
  Pool.best [] now = None /\
  (let pool := [Sample.alice; Sample.bob; Sample.carol] in
   map (fun u => Qred (User.cooldown u 100)) pool = [- (5); 10; 0] /\
   Pool.any pool 100 = true /\
   Pool.ready pool 100 = 2%Z /\
   Pool.best pool 100 = Some Sample.alice).
Proof.
  split; [apply any_spec |]. split; [apply ready_spec |]. split.
  - destruct users as [| v users]; [reflexivity |].
    unfold Pool.best. simpl.
    destruct (best_loop_min now users v) as [b' [Hb' [Hin [Hle Hmin]]]].
    unfold Pool.best_step at 2. simpl. rewrite Hb'. split.
    + destruct Hin as [-> | Hin]; [left | right]; auto.
    + intros u [<- | Hu]; auto.
  - split; [reflexivity |]. repeat split.
Qed.

End Scheduling.

(** ** Placement through the pool *)

Section PoolPut.

Local Open Scope Q_scope.

Variable fl : Float.
Variable srv : Remote.
Variable now : Q.
Variables color x y : Z.

(** The scan passes over accounts that are not ready and leaves them
    as they were. *)
Lemma put_skip (pre rest : Pool.t) :
  (forall v, In v pre -> Pool.is_ready now v = false) ->
  Pool.put fl srv now (pre ++ rest) color x y
  = (fst (Pool.put fl srv now rest color x y),
     pre ++ snd (Pool.put fl srv now rest color x y)).
Proof.
  induction pre as [| v pre IH]; intros Hpre; simpl.
  - destruct (Pool.put fl srv now rest color x y); reflexivity.
  - rewrite (Hpre v) by (left; reflexivity).
    rewrite IH by (intros w Hw; apply Hpre; right; exact Hw).
    reflexivity.
Qed.

(** A ready account at the head takes the call. *)
Lemma put_head (u : User.t) (post : Pool.t) :
  Pool.is_ready now u = true ->
  Pool.put fl srv now (u :: post) color x y
  = (_ <- fst (User.put fl srv now u color x y) ;; Ok true,
     snd (User.put fl srv now u color x y) :: post).
Proof.
  intros Hu. simpl. rewrite Hu.
  destruct (User.put fl srv now u color x y); reflexivity.
Qed.

Lemma put_none_ready (users : Pool.t) :
  (forall v, In v users -> Pool.is_ready now v = false) ->
  Pool.put fl srv now users color x y = (Ok false, users).
Proof.
  intros H. rewrite <- (app_nil_r users) at 1.
  rewrite put_skip by exact H. simpl. rewrite app_nil_r. reflexivity.
Qed.

(** A pool with a ready account splits at the first one. *)
Lemma first_ready_split (users : Pool.t) :
  Pool.any users now = true ->
  exists pre u post,
    users = pre ++ u :: post /\
    (forall v, In v pre -> Pool.is_ready now v = false) /\
    Pool.is_ready now u = true.
Proof.
  induction users as [| v users IH]; simpl; [discriminate |].
  destruct (Pool.is_ready now v) eqn:E; simpl.
  - intros _. exists [], v, users. repeat split; auto. intros w [].
  - intros Hany. destruct (IH Hany) as [pre [u [post [-> [Hpre Hu]]]]].
    exists (v :: pre), u, post. repeat split; auto.
    intros w [<- | Hw]; auto.
Qed.

End PoolPut.

(** C5: [Pool.put] goes through the accounts in order and hands the
    placement to the first one whose cooldown is at most 0: its result
    and the account it leaves behind are those of that account's [put],
    every other account is untouched; with no such account it returns
    false.  The first ready account is taken even when a later one has
    the shorter cooldown: of [carol] at 0 and [alice] at -5, [best] is
    [alice] and the placement goes to [carol]. *)
Theorem pool_put_first_eligible (fl : Float) (srv : Remote) (now : Q) (color x y : Z)
  (pre : Pool.t) (u : User.t) (post : Pool.t)
  (Hpre : forall v, In v pre -> (0 < User.cooldown v now)%Q)
  (Hu : (User.cooldown u now <= 0)%Q) :
  Pool.put fl srv now (pre ++ u :: post) color x y
  = (_ <- fst (User.put fl srv now u color x y) ;; Ok true,
     pre ++ snd (User.put fl srv now u color x y) :: post) /\
  Pool.put fl srv now pre color x y = (Ok false, pre) /\
  (let pool := [Sample.carol; Sample.alice] in
   Pool.best pool 100 = Some Sample.alice /\
   snd (Pool.put Sample.exact Sample.service 100 pool 27 0 0)
   = [User.with_next Sample.carol (400000 / 1000); Sample.alice]).
Proof.
  assert (Hpre' : forall v, In v pre -> Pool.is_ready now v = false)
    by (intros v Hv; apply Qleb_gt; auto).
  split; [| split].
  - rewrite put_skip by exact Hpre'.
    rewrite put_head by (apply Qleb_le; exact Hu). reflexivity.
  - apply put_none_ready. exact Hpre'.
  - split; reflexivity.
Qed.

Lemma pool_put_first_eligible_witness :
  (forall v, In v [Sample.bob] -> (0 < User.cooldown v 100)%Q) /\
  (User.cooldown Sample.carol 100 <= 0)%Q /\
  Pool.put Sample.exact Sample.service 100 ([Sample.bob] ++ Sample.carol :: [Sample.alice]) 27 0 0
  = (_ <- fst (User.put Sample.exact Sample.service 100 Sample.carol 27 0 0) ;; Ok true,
     [Sample.bob] ++ snd (User.put Sample.exact Sample.service 100 Sample.carol 27 0 0)
       :: [Sample.alice]).
Proof.
  assert (Hpre : forall v, In v [Sample.bob] -> (0 < User.cooldown v 100)%Q)
    by (intros v [<- | []]; reflexivity).
  assert (Hu : (User.cooldown Sample.carol 100 <= 0)%Q)
    by (intros H; discriminate H).
  split; [exact Hpre |]. split; [exact Hu |].
  exact (proj1 (pool_put_first_eligible Sample.exact Sample.service 100 27 0 0
                  [Sample.bob] Sample.carol [Sample.alice] Hpre Hu)).
Defined.

(** C9: when some account is ready, [Pool.put] returns true whatever the
    [put] of the first ready account returns, be it true, false or
    nothing; only an exception of that [put] comes through, unchanged. *)
Theorem pool_put_discards_outcome (fl : Float) (srv : Remote) (now : Q) (color x y : Z)
  (users : Pool.t)
  (Hany : Pool.any users now = true) :
  exists pre u post,
    users = pre ++ u :: post /\
    Pool.any pre now = false /\
    Pool.is_ready now u = true /\
    snd (Pool.put fl srv now users color x y)
    = pre ++ snd (User.put fl srv now u color x y) :: post /\
    match fst (User.put fl srv now u color x y) with
    | Ok _ => fst (Pool.put fl srv now users color x y) = Ok true
    | Raise e => fst (Pool.put fl srv now users color x y) = Raise e
    | Untyped => fst (Pool.put fl srv now users color x y) = Untyped
    end.
Proof.
  destruct (first_ready_split now users Hany) as [pre [u [post [-> [Hpre Hu]]]]].
  exists pre, u, post.
  rewrite put_skip by exact Hpre. rewrite put_head by exact Hu. simpl.
  repeat split; auto.
  - destruct (Pool.any pre now) eqn:E; [| reflexivity].
    apply existsb_exists in E. destruct E as [v [Hv Hr]].
    rewrite (Hpre v Hv) in Hr. discriminate.
  - destruct (fst (User.put fl srv now u color x y)); reflexivity.
Qed.

Lemma pool_put_discards_outcome_witness :
  Pool.any [Sample.bob; Sample.carol; Sample.alice] 100 = true /\
  fst (User.put Sample.exact Sample.service 100 Sample.carol 27 0 0) = Ok (Some false) /\
  fst (Pool.put Sample.exact Sample.service 100 [Sample.bob; Sample.carol; Sample.alice] 27 0 0)
  = Ok true /\
  fst (User.put Sample.exact Sample.mute 100 Sample.carol 27 0 0) = Ok None /\
  fst (Pool.put Sample.exact Sample.mute 100 [Sample.bob; Sample.carol; Sample.alice] 27 0 0)
  = Ok true /\
  exists pre u post,
    [Sample.bob; Sample.carol; Sample.alice] = pre ++ u :: post /\
    Pool.any pre 100 = false /\
    Pool.is_ready 100 u = true.
Proof.
  split; [reflexivity |]. split; [reflexivity |]. split; [reflexivity |].
  split; [reflexivity |]. split; [reflexivity |].
  destruct (pool_put_discards_outcome Sample.exact Sample.service 100 27 0 0
              [Sample.bob; Sample.carol; Sample.alice] eq_refl)
    as [pre [u [post [Hsplit [Hpre [Hu _]]]]]].
  exists pre, u, post. auto.
Defined.

(** ** One placement *)

Section UserPut.

Local Open Scope Q_scope.

Variable fl : Float.
Variable now : Q.
Variable u : User.t.

Lemma put_acts_silent (acts : list json) :
  forallb Shapes.act_silent acts = true ->
  User.put_acts fl now u acts = (Ok Continue, u).
Proof.
  induction acts as [| act acts IH]; simpl; [reflexivity |].
  intros H. apply andb_true_iff in H. destruct H as [Hact Hrest].
  destruct act as [| | | | | fields]; try discriminate Hact.
  unfold Shapes.act_silent in Hact. unfold getitem.
  destruct (assoc "data" fields) as [[| | | | | d] |]; try discriminate Hact.
  simpl.
  destruct (assoc "nextAvailablePixelTimestamp" d); [discriminate Hact |].
  apply IH. exact Hrest.
Qed.

Lemma put_errs_silent (errs : list json) :
  forallb Shapes.err_silent errs = true ->
  User.put_errs fl now u errs = (Ok Continue, u).
Proof.
  induction errs as [| err errs IH]; simpl; [reflexivity |].
  intros H. apply andb_true_iff in H. destruct H as [Herr Hrest].
  destruct err as [| | | | | fields]; try discriminate Herr.
  unfold Shapes.err_silent in Herr. unfold contains, getitem, and_then. simpl.
  destruct (assoc "extensions" fields) as [[| | | | | ext] |];
    try discriminate Herr; simpl.
  - destruct (assoc "nextAvailablePixelTs" ext); [discriminate Herr |].
    apply IH. exact Hrest.
  - apply IH. exact Hrest.
Qed.

Lemma unauthorized_quiet (acts errs : option (list json)) :
  User.unauthorized (Shapes.quiet_response acts errs) = Ok false.
Proof. destruct acts, errs; reflexivity. Qed.

Lemma put_data_quiet (acts errs : option (list json)) :
  Shapes.silent Shapes.act_silent acts = true ->
  User.put_data fl now u (Shapes.quiet_response acts errs) = (Ok Continue, u).
Proof.
  intros H. destruct acts as [a |].
  - destruct errs; unfold User.put_data; simpl; apply put_acts_silent; exact H.
  - destruct errs; reflexivity.
Qed.

Lemma put_errors_quiet (acts errs : option (list json)) :
  Shapes.silent Shapes.err_silent errs = true ->
  User.put_errors fl now u (Shapes.quiet_response acts errs) = (Ok Continue, u).
Proof.
  intros H. destruct errs as [e |].
  - destruct acts; unfold User.put_errors; simpl;
      (destruct e as [| e0 e]; [reflexivity |]);
      apply put_errs_silent; exact H.
  - destruct acts; reflexivity.
Qed.

(** The test after the assignment of [next], on a value that is not 0
    and whose float distance from [now] is more than 31 days. *)
Lemma settle_far (q : Q) (ret : bool) :
  ~ q == 0 -> User.month < fsub fl q now ->
  User.settle fl now u q ret
  = (Raise (UnauthorizedError (Text "Rate limited: cooldown too long") false),
     User.with_next u q).
Proof.
  intros Hq Hfar. unfold User.settle.
  assert (Hz : Qeq_bool q 0 = false).
  { destruct (Qeq_bool q 0) eqn:E; [| reflexivity].
    apply Qeq_bool_iff in E. contradiction. }
  rewrite Hz. apply Qltb_lt in Hfar. rewrite Hfar. reflexivity.
Qed.

(** Acts without a time stamp are passed over. *)
Lemma put_acts_pass (pre rest : list json) :
  forallb Shapes.act_silent pre = true ->
  User.put_acts fl now u (pre ++ rest) = User.put_acts fl now u rest.
Proof.
  induction pre as [| act pre IH]; simpl; [reflexivity |].
  intros H. apply andb_true_iff in H. destruct H as [Hact Hpre].
  destruct act as [| | | | | fields]; try discriminate Hact.
  unfold Shapes.act_silent in Hact. unfold getitem.
  destruct (assoc "data" fields) as [[| | | | | d] |]; try discriminate Hact.
  simpl.
  destruct (assoc "nextAvailablePixelTimestamp" d); [discriminate Hact |].
  apply IH. exact Hpre.
Qed.

(** Errors without a time stamp are passed over. *)
Lemma put_errs_pass (pre rest : list json) :
  forallb Shapes.err_silent pre = true ->
  User.put_errs fl now u (pre ++ rest) = User.put_errs fl now u rest.
Proof.
  induction pre as [| err pre IH]; simpl; [reflexivity |].
  intros H. apply andb_true_iff in H. destruct H as [Herr Hpre].
  destruct err as [| | | | | fields]; try discriminate Herr.
  unfold Shapes.err_silent in Herr. unfold contains, getitem, and_then. simpl.
  destruct (assoc "extensions" fields) as [[| | | | | ext] |];
    try discriminate Herr; simpl.
  - destruct (assoc "nextAvailablePixelTs" ext); [discriminate Herr |].
    apply IH. exact Hpre.
  - apply IH. exact Hpre.
Qed.

(** An act that carries a number as its time stamp ends the loop. *)
Lemma put_acts_carrier (act : json) (rest : list json) (ms q : Q) :
  Shapes.act_carries act = Some (JNum ms) ->
  fdiv fl ms 1000 = Some q ->
  User.put_acts fl now u (act :: rest) = User.settle fl now u q true.
Proof.
  intros Hact Hdiv. destruct act as [| | | | | fields]; try discriminate Hact.
  unfold Shapes.act_carries in Hact. simpl. unfold getitem.
  destruct (assoc "data" fields) as [[| | | | | d] |]; try discriminate Hact.
  simpl. rewrite Hact. simpl. rewrite Hdiv. reflexivity.
Qed.

(** An error that carries a number as its time stamp ends the loop. *)
Lemma put_errs_carrier (err : json) (rest : list json) (ms q : Q) :
  Shapes.err_carries err = Some (JNum ms) ->
  fdiv fl ms 1000 = Some q ->
  User.put_errs fl now u (err :: rest) = User.settle fl now u q false.
Proof.
  intros Herr Hdiv. destruct err as [| | | | | fields]; try discriminate Herr.
  unfold Shapes.err_carries in Herr. simpl.
  unfold contains, getitem, and_then. simpl.
  destruct (assoc "extensions" fields) as [[| | | | | ext] |];
    try discriminate Herr.
  simpl. rewrite Herr. simpl. rewrite Hdiv. reflexivity.
Qed.

(** The first loop runs over the acts the response lists. *)
Lemma put_data_acts (answ : json) (acts : list json) :
  Shapes.acts_of answ = Some acts ->
  User.put_data fl now u answ = User.put_acts fl now u acts.
Proof.
  intros H. destruct answ as [| | | | | top]; try discriminate H.
  unfold Shapes.acts_of in H.
  unfold User.put_data, and_then, contains, getitem.
  destruct (assoc "data" top) as [d |]; [| injection H as <-; reflexivity].
  simpl bind. destruct (truthy d) eqn:Ed; [| injection H as <-; reflexivity].
  destruct d as [| | | | | dfs]; try discriminate H.
  destruct (assoc "act" dfs) as [[| | | | | afs] |] eqn:Ea; try discriminate H.
  destruct (assoc "data" afs) as [[| | | | items |] |] eqn:Eb;
    try discriminate H.
  injection H as <-. cbn [bind]. rewrite ?Ea. cbn [bind]. rewrite ?Eb.
  reflexivity.
Qed.

(** The second loop runs over the errors the response lists. *)
Lemma put_errors_errs (answ : json) (errs : list json) :
  Shapes.errs_of answ = Some errs ->
  User.put_errors fl now u answ = User.put_errs fl now u errs.
Proof.
  intros H. destruct answ as [| | | | | top]; try discriminate H.
  unfold Shapes.errs_of in H.
  unfold User.put_errors, and_then, contains, getitem.
  destruct (assoc "errors" top) as [e |]; [| injection H as <-; reflexivity].
  simpl bind.
  destruct e as [| b | q | str | items | fs]; simpl in H; simpl truthy.
  - injection H as <-. reflexivity.
  - destruct b; [discriminate H | injection H as <-; reflexivity].
  - destruct (Qeq_bool q 0); [injection H as <-; reflexivity | discriminate H].
  - destruct (String.eqb str ""); [injection H as <-; reflexivity | discriminate H].
  - injection H as <-. destruct items; reflexivity.
  - destruct fs; [injection H as <-; reflexivity | discriminate H].
Qed.

End UserPut.

(** C10: some responses make [put] return neither true nor false.  With
    no [success] key (hence no [UNAUTHORIZED] marker), no next time stamp
    in any act of the data envelope and none in the extensions of any
    error, [put] runs off the end of its body: it returns [None] and
    leaves the account, its [next] included, as it was.  The empty
    object is such a response. *)
Theorem put_falls_through (fl : Float) (srv : Remote) (now : Q) (u : User.t)
  (color x y : Z) (c : Colors.RedditColor) (acts errs : option (list json))
  (Hcolor : Colors.of_value (J := json) color = Ok c)
  (Hansw : set_pixel srv (User.token u) x y color 0
           = Shapes.quiet_response acts errs)
  (Hacts : Shapes.silent Shapes.act_silent acts = true)
  (Herrs : Shapes.silent Shapes.err_silent errs = true) :
  User.put fl srv now u color x y = (Ok None, u) /\
  Shapes.quiet_response None None = JObj [].
Proof.
  split; [| reflexivity].
  unfold User.put. rewrite Hcolor, Hansw, unauthorized_quiet.
  rewrite put_data_quiet by exact Hacts.
  rewrite put_errors_quiet by exact Herrs. reflexivity.
Qed.

Lemma put_falls_through_witness :
  Colors.of_value (J := json) 27 = Ok Colors.BLACK /\
  Shapes.silent Shapes.act_silent Sample.quiet_acts = true /\
  Shapes.silent Shapes.err_silent Sample.quiet_errs = true /\
  User.put Sample.exact Sample.hush 100 Sample.alice 27 3 4 = (Ok None, Sample.alice).
Proof.
  split; [reflexivity |]. split; [reflexivity |]. split; [reflexivity |].
  exact (proj1 (put_falls_through Sample.exact Sample.hush 100 Sample.alice 27 3 4
                  Colors.BLACK Sample.quiet_acts Sample.quiet_errs
                  eq_refl eq_refl eq_refl eq_refl)).
Defined.

(** C3 (as the code runs): take a response without the [UNAUTHORIZED]
    marker and the first cooldown [put] reads in it: the time stamp of
    the first act of the data envelope that carries one or, when no act
    carries one, that of the first error whose extensions carry one.
    When that time stamp is a number whose float quotient by 1000 is
    not 0 and lies, by float subtraction, more than 31 days after [now],
    [put] stores the quotient in [next] and then raises the
    [UnauthorizedError] that is not refreshable.  From then on the
    account counts as ready exactly at the times that are not before
    the stored value: nothing but that value keeps it out. *)
Theorem put_far_cooldown (fl : Float) (srv : Remote) (now : Q) (u : User.t)
  (color x y : Z) (c : Colors.RedditColor)
  (acts pre rest : list json) (entry : json) (ms q : Q)
  (Hcolor : Colors.of_value (J := json) color = Ok c)
  (Hmarker : User.unauthorized (set_pixel srv (User.token u) x y color 0)
             = Ok false)
  (Hfirst :
     (Shapes.acts_of (set_pixel srv (User.token u) x y color 0)
      = Some (pre ++ entry :: rest) /\
      forallb Shapes.act_silent pre = true /\
      Shapes.act_carries entry = Some (JNum ms))
     \/
     (Shapes.acts_of (set_pixel srv (User.token u) x y color 0) = Some acts /\
      forallb Shapes.act_silent acts = true /\
      Shapes.errs_of (set_pixel srv (User.token u) x y color 0)
      = Some (pre ++ entry :: rest) /\
      forallb Shapes.err_silent pre = true /\
      Shapes.err_carries entry = Some (JNum ms)))
  (Hdiv : fdiv fl ms 1000 = Some q)
  (Hq : ~ (q == 0)%Q)
  (Hfar : (User.month < fsub fl q now)%Q) :
  User.put fl srv now u color x y
  = (Raise (UnauthorizedError (Text "Rate limited: cooldown too long") false),
     User.with_next u q) /\
  forall t : Q,
    Pool.is_ready t (User.with_next u q) = true <-> (q <= t)%Q.
Proof.
  split.
  - unfold User.put. rewrite Hcolor, Hmarker.
    destruct Hfirst as [[Hacts [Hpre Hentry]]
                       | [Hacts [Hsilent [Herrs [Hpre Hentry]]]]].
    + rewrite (put_data_acts fl now u _ _ Hacts).
      rewrite put_acts_pass by exact Hpre.
      rewrite (put_acts_carrier fl now u entry rest ms q Hentry Hdiv).
      rewrite settle_far by assumption. reflexivity.
    + rewrite (put_data_acts fl now u _ _ Hacts).
      rewrite put_acts_silent by exact Hsilent.
      rewrite (put_errors_errs fl now u _ _ Herrs).
      rewrite put_errs_pass by exact Hpre.
      rewrite (put_errs_carrier fl now u entry rest ms q Hentry Hdiv).
      rewrite settle_far by assumption. reflexivity.
  - intros t. unfold Pool.is_ready. rewrite Qleb_le.
    assert (Hcd : (User.cooldown (User.with_next u q) t == q - t)%Q)
      by (unfold User.cooldown; rewrite next_or_0_eq; reflexivity).
    rewrite Hcd. split; intros H; lra.
Qed.

Lemma put_far_cooldown_witness :
  Colors.of_value (J := json) 27 = Ok Colors.BLACK /\
  User.unauthorized (set_pixel Sample.service (User.token Sample.dave) 0 0 27 0)
  = Ok false /\
  Shapes.acts_of (set_pixel Sample.service (User.token Sample.dave) 0 0 27 0)
  = Some ([] ++ Sample.carrier Sample.far :: []) /\
  fdiv Sample.exact Sample.far 1000 = Some (Sample.far / 1000)%Q /\
  ~ (Sample.far / 1000 == 0)%Q /\
  (User.month < fsub Sample.exact (Sample.far / 1000) 100)%Q /\
  User.put Sample.exact Sample.service 100 Sample.dave 27 0 0
  = (Raise (UnauthorizedError (Text "Rate limited: cooldown too long") false),
     User.with_next Sample.dave (Sample.far / 1000)%Q).
Proof.
  assert (Hq : ~ (Sample.far / 1000 == 0)%Q) by (intros H; discriminate H).
  assert (Hfar : (User.month < fsub Sample.exact (Sample.far / 1000) 100)%Q)
    by reflexivity.
  split; [reflexivity |]. split; [reflexivity |]. split; [reflexivity |].
  split; [reflexivity |]. split; [exact Hq |]. split; [exact Hfar |].
  exact (proj1 (put_far_cooldown Sample.exact Sample.service 100 Sample.dave
                  27 0 0 Colors.BLACK [] [] [] (Sample.carrier Sample.far)
                  Sample.far (Sample.far / 1000)%Q eq_refl eq_refl
                  (or_introl (conj eq_refl (conj eq_refl eq_refl)))
                  eq_refl Hq Hfar)).
Defined.

(** C3 as stated fails on [dave], answered with a cooldown 40 days
    ahead: the exception is the one claimed, but [next] now holds the
    implausible value, and at that time the account counts as ready
    again. *)
Lemma put_far_cooldown_counterexample :
  ~ (fst (User.put Sample.exact Sample.service 100 Sample.dave 27 0 0)
     = Raise (UnauthorizedError (Text "Rate limited: cooldown too long") false) /\
     (User.next (snd (User.put Sample.exact Sample.service 100 Sample.dave 27 0 0))
      <> Some (Sample.far / 1000)%Q \/
      forall t : Q,
        (100 <= t)%Q ->
        Pool.any [snd (User.put Sample.exact Sample.service 100 Sample.dave 27 0 0)] t
        = false)).
Proof.
  intros [_ [Hnext | Hout]].
  - apply Hnext. reflexivity.
  - specialize (Hout (Sample.far / 1000)%Q).
    assert (Hlater : (100 <= Sample.far / 1000)%Q) by (intros H; discriminate H).
    specialize (Hout Hlater). discriminate Hout.
Qed.

(** ** Token refresh *)

(** C4 (as the code runs): on an account whose refresh token is absent,
    empty or the literal ["null"], [refresh_token] raises an
    [UnauthorizedError] built with the text ["No refresh token"] (the code
    has no exception class of its own for this case), whatever the
    service would answer, and leaves the access token and every other
    attribute of the account as they were. *)
Theorem refresh_without_token (srv : Remote) (u : User.t)
  (Hnone : User.refresh u = None \/
           User.refresh u = Some ""%string \/
           User.refresh u = Some "null"%string) :
  User.no_refresh u = true /\
  (exists flag : bool,
      User.refresh_token srv u
      = (Raise (UnauthorizedError (Text "No refresh token") flag), u)) /\
  User.token (snd (User.refresh_token srv u)) = User.token u.
Proof.
  unfold User.no_refresh, User.refresh_token.
  destruct Hnone as [-> | [-> | ->]]; simpl;
    (split; [reflexivity |]); (split; [exists true |]); reflexivity.
Qed.

Lemma refresh_without_token_witness :
  User.refresh Sample.bob = Some "null"%string /\
  User.no_refresh Sample.bob = true /\
  User.token (snd (User.refresh_token Sample.service Sample.bob))
  = User.token Sample.bob.
Proof.
  split; [reflexivity |].
  pose proof (refresh_without_token Sample.service Sample.bob
                (or_intror (or_intror eq_refl))) as [Hno [_ Htok]].
  split; assumption.
Defined.

(** C4 as stated fails on [alice], who has no refresh token: what the
    caller catches is an [UnauthorizedError] whose [refreshable] reads
    true, as for a failure that a refresh could cure. *)
Lemma refresh_without_token_counterexample :
  ~ (exists e : exn json,
        fst (User.refresh_token Sample.service Sample.alice) = Raise e /\
        User.token (snd (User.refresh_token Sample.service Sample.alice))
        = User.token Sample.alice /\
        refreshable e <> Some true).
Proof.
  intros [e [He [_ Hflag]]]. simpl in He.
  injection He as <-. apply Hflag. reflexivity.
Qed.

(** ** Persistence *)

Section Persistence.

Variable uuid4 : nat -> string.

Lemma str_eqb_false (a b : string) : a <> b -> String.eqb a b = false.
Proof. intros H. apply String.eqb_neq. exact H. Qed.

(** One stored record read back. *)
Lemma load_as_dict (k : nat) (u : User.t) (rest : list json) :
  User.id u <> ""%string ->
  Pool.load uuid4 k (User.as_dict u :: rest)
  = (us <- Pool.load uuid4 k rest ;; Ok (Stored.falsy_to_absent u :: us)).
Proof.
  intros Hid. destruct u as [i n tok r nx]. simpl in Hid.
  unfold Stored.falsy_to_absent, User.no_refresh. simpl User.refresh.
  simpl User.next. simpl User.id. simpl User.name. simpl User.token.
  assert (Hi : String.eqb i "" = false) by (apply str_eqb_false; exact Hid).
  destruct r as [r |]; destruct nx as [q |];
    try (destruct (String.eqb r "") eqn:E1);
    try (destruct (String.eqb r "null") eqn:E2);
    try (destruct (Qeq_bool q 0) eqn:E3);
    repeat progress (cbn; unfold User.init; rewrite ?E1, ?E2, ?E3, ?Hi);
    reflexivity.
Qed.

Lemma load_serialized (k : nat) (users : Pool.t) :
  (forall u, In u users -> User.id u <> ""%string) ->
  Pool.load uuid4 k (map User.as_dict users)
  = Ok (map Stored.falsy_to_absent users).
Proof.
  induction users as [| u users IH]; intros Hid; [reflexivity |].
  simpl map. rewrite load_as_dict by (apply Hid; left; reflexivity).
  rewrite IH by (intros v Hv; apply Hid; right; exact Hv). reflexivity.
Qed.

End Persistence.

Lemma falsy_to_absent_idem (u : User.t) :
  Stored.falsy_to_absent (Stored.falsy_to_absent u) = Stored.falsy_to_absent u.
Proof.
  destruct u as [i n tok r nx].
  unfold Stored.falsy_to_absent, User.no_refresh. simpl.
  f_equal.
  - destruct r as [r |]; [| reflexivity].
    destruct (String.eqb r "" || String.eqb r "null") eqn:E; [reflexivity |].
    rewrite E. reflexivity.
  - destruct nx as [q |]; [| reflexivity].
    destruct (Qeq_bool q 0) eqn:E; [reflexivity |].
    rewrite E. reflexivity.
Qed.

(** With no empty value in it, an account read back is the account the
    specification expects: only the ["null"] sentinel has gone. *)
Lemma falsy_to_absent_null (u : User.t) :
  User.refresh u <> Some ""%string ->
  (forall q, User.next u = Some q -> Qeq_bool q 0 = false) ->
  Stored.falsy_to_absent u = Stored.null_to_absent u.
Proof.
  destruct u as [i n tok r nx].
  unfold Stored.falsy_to_absent, Stored.null_to_absent, User.no_refresh. simpl.
  intros Hr Hnx. f_equal.
  - destruct r as [r |]; [| reflexivity].
    destruct (String.eqb r "") eqn:E.
    + apply String.eqb_eq in E. subst r. exfalso. apply Hr. reflexivity.
    + simpl. destruct (String.eqb r "null"); reflexivity.
  - destruct nx as [q |]; [| reflexivity].
    rewrite (Hnx q eq_refl). reflexivity.
Qed.

(** C8 (as the code runs): for a pool whose accounts have the non-empty
    [id] the constructor gives them, the document [serialize] writes is
    read back by [__init__] as the same accounts in the same order, equal
    in [id], [name] and [token], with [refresh] absent when it was
    absent, empty or ["null"] and [next] absent when it was absent or 0;
    saving and loading the result once more changes nothing; and an
    account without an empty [refresh] and without a zero [next] comes
    back as the original with only the sentinel read as absent. *)
Theorem save_load_roundtrip (uuid4 : nat -> string) (users : Pool.t)
  (Hid : forall u, In u users -> User.id u <> ""%string) :
  Pool.init uuid4 (Some (Pool.serialize users))
  = Ok (map Stored.falsy_to_absent users) /\
  Pool.init uuid4 (Some (Pool.serialize (map Stored.falsy_to_absent users)))
  = Ok (map Stored.falsy_to_absent users) /\
  (forall u, In u users ->
             User.refresh u <> Some ""%string ->
             (forall q, User.next u = Some q -> Qeq_bool q 0 = false) ->
             Stored.falsy_to_absent u = Stored.null_to_absent u).
Proof.
  split; [| split].
  - unfold Pool.init, Pool.serialize. simpl.
    apply load_serialized. exact Hid.
  - unfold Pool.init, Pool.serialize. simpl.
    rewrite load_serialized.
    + rewrite map_map. f_equal. apply map_ext.
      intros u. apply falsy_to_absent_idem.
    + intros v Hv. apply in_map_iff in Hv.
      destruct Hv as [w [<- Hw]]. simpl. apply Hid. exact Hw.
  - intros u _. apply falsy_to_absent_null.
Qed.

Lemma save_load_roundtrip_witness :
  (forall u, In u [Sample.alice; Sample.bob; Sample.carol; Sample.dave] ->
             User.id u <> ""%string) /\
  Pool.init Sample.uuids
    (Some (Pool.serialize [Sample.alice; Sample.bob; Sample.carol; Sample.dave]))
  = Ok [Sample.alice;
        Sample.account "bob" None (Some 110%Q);
        Sample.carol; Sample.dave].
Proof.
  assert (Hid : forall u,
             In u [Sample.alice; Sample.bob; Sample.carol; Sample.dave] ->
             User.id u <> ""%string).
  { intros u [<- | [<- | [<- | [<- | []]]]]; discriminate. }
  split; [exact Hid |].
  exact (proj1 (save_load_roundtrip Sample.uuids _ Hid)).
Defined.

(** C8 as stated fails on [zed], whose [next] is 0, a number and not the
    sentinel: it is saved as [null] and comes back absent. *)
Lemma save_load_roundtrip_counterexample :
  ~ (Pool.init Sample.uuids (Some (Pool.serialize [Sample.zed]))
     = Ok (map Stored.null_to_absent [Sample.zed])).
Proof. discriminate. Qed.

(** * Further properties *)

(** ** Palette: packing *)

Section PackFacts.

Import Colors.

Lemma unpack_div_mod (c : Z) :
  unpack c = (c mod 2 ^ 8, (c / 2 ^ 8) mod 2 ^ 8, (c / 2 ^ 16) mod 2 ^ 8).
Proof.
  unfold unpack. rewrite !land_FLT_r, !Z.shiftr_div_pow2 by lia. reflexivity.
Qed.

(** X1: whatever integers it is given, [pack] yields a value of 24 bits,
    and two triples pack to the same value exactly when their channels
    agree modulo 256. *)
Theorem pack_range_injective (r g b r' g' b' : Z) :
  0 <= pack r g b < 2 ^ 24 /\
  (pack r g b = pack r' g' b'
   <-> r mod 2 ^ 8 = r' mod 2 ^ 8 /\
       g mod 2 ^ 8 = g' mod 2 ^ 8 /\
       b mod 2 ^ 8 = b' mod 2 ^ 8).
Proof.
  split.
  - rewrite pack_layout.
    pose proof (Z.mod_pos_bound r (2 ^ 8) ltac:(lia)).
    pose proof (Z.mod_pos_bound g (2 ^ 8) ltac:(lia)).
    pose proof (Z.mod_pos_bound b (2 ^ 8) ltac:(lia)).
    change (2 ^ 8) with 256 in *. change (2 ^ 16) with 65536.
    change (2 ^ 24) with 16777216. lia.
  - split.
    + intros Heq.
      assert (H : unpack (pack r g b) = unpack (pack r' g' b'))
        by (rewrite Heq; reflexivity).
      rewrite !unpack_pack_mod in H. injection H as H1 H2 H3. auto.
    + intros [H1 [H2 H3]]. rewrite !pack_layout, H1, H2, H3. reflexivity.
Qed.

(** X2: [unpack] of any integer, negative ones included, gives three
    channels in 0..255, and packing them again gives the integer back
    modulo 2^24: a value of 24 bits goes through unchanged. *)
Theorem unpack_range_pack (c : Z) :
  (let '(r, g, b) := unpack c in
   0 <= r <= 255 /\ 0 <= g <= 255 /\ 0 <= b <= 255 /\
   pack r g b = c mod 2 ^ 24) /\
  (0 <= c < 2 ^ 24 ->
   let '(r, g, b) := unpack c in pack r g b = c).
Proof.
  rewrite unpack_div_mod.
  pose proof (Z.mod_pos_bound c (2 ^ 8) ltac:(lia)) as Hr.
  pose proof (Z.mod_pos_bound (c / 2 ^ 8) (2 ^ 8) ltac:(lia)) as Hg.
  pose proof (Z.mod_pos_bound (c / 2 ^ 16) (2 ^ 8) ltac:(lia)) as Hb.
  assert (Hpack : pack (c mod 2 ^ 8) ((c / 2 ^ 8) mod 2 ^ 8)
                       ((c / 2 ^ 16) mod 2 ^ 8) = c mod 2 ^ 24).
  { rewrite pack_layout, !Z.mod_mod by lia.
    change (2 ^ 8) with 256 in *. change (2 ^ 16) with 65536 in *.
    change (2 ^ 24) with 16777216. Z.div_mod_to_equations. lia. }
  split.
  - repeat split; lia.
  - intros Hc. rewrite Hpack. apply Z.mod_small. exact Hc.
Qed.

Lemma unpack_range_pack_witness :
  0 <= 16729344 < 2 ^ 24 /\
  unpack 16729344 = (0, 69, 255) /\
  pack 0 69 255 = 16729344.
Proof.
  split; [lia |]. split; [reflexivity |].
  exact (proj2 (unpack_range_pack 16729344) ltac:(lia)).
Defined.

End PackFacts.

(** ** Palette: members and search *)

Section MemberFacts.

Import Colors.

Lemma members_complete (c : RedditColor) : In c members.
Proof. destruct c; simpl; tauto. Qed.

Lemma value_injective (c d : RedditColor) : value c = value d -> c = d.
Proof. destruct c, d; simpl; intros H; try reflexivity; discriminate H. Qed.

Lemma of_value_value (c : RedditColor) : of_value (J := json) (value c) = Ok c.
Proof. destruct c; reflexivity. Qed.

Lemma of_value_ok (v : Z) (c : RedditColor) :
  of_value (J := json) v = Ok c -> value c = v.
Proof.
  unfold of_value. intros H.
  destruct (find (fun d => value d =? v) members) as [d |] eqn:E;
    [| discriminate H].
  injection H as ->. apply find_some in E. lia.
Qed.

Lemma of_value_not_member (v : Z) :
  (forall d, value d <> v) -> of_value (J := json) v = Raise ValueError.
Proof.
  intros Hno. unfold of_value.
  destruct (find (fun d => value d =? v) members) as [d |] eqn:E;
    [| reflexivity].
  apply find_some in E. exfalso. apply (Hno d). lia.
Qed.

(** X3: [RedditColor(v)] gives back the member of value [v]: it undoes
    [value] on every member, it returns only a member whose value is the
    one asked for, and it raises [ValueError] exactly on the integers
    that are no member's value, such as the gaps 5 and 11. *)
Theorem of_value_roundtrip (v : Z) (c : RedditColor) :
  of_value (J := json) (value c) = Ok c /\
  (of_value (J := json) v = Ok c <-> value c = v) /\
  (of_value (J := json) v = Raise ValueError <-> forall d, value d <> v) /\
  of_value (J := json) 5 = Raise ValueError /\
  of_value (J := json) 11 = Raise ValueError.
Proof.
  split; [apply of_value_value |]. split; [| split; [| split; reflexivity]].
  - split; [apply of_value_ok |]. intros <-. apply of_value_value.
  - split; [| apply of_value_not_member].
    intros H d Hd. subst v. rewrite of_value_value in H. discriminate H.
Qed.

End MemberFacts.

Section SearchFacts.

Import Colors.

Context {F : Type}.
Variable sqrt : Z -> F.
Variable lt : F -> F -> bool.

(** One turn of the loop on a member that has three channels. *)
Lemma closest_step_defined (r g b : Z) (st : option (RedditColor * F))
      (c : RedditColor) :
  Search.channels c <> None ->
  closest_step (J := json) sqrt lt r g b st c
  = Ok (match st with
        | None => Some (c, sqrt (Search.dist2 r g b c))
        | Some (_, d) =>
            if lt (sqrt (Search.dist2 r g b c)) d
            then Some (c, sqrt (Search.dist2 r g b c))
            else st
        end).
Proof.
  unfold closest_step, to_tuple, Search.dist2, Search.channels.
  destruct (lookup (value c) _color_map) as [[| cr [| cg [| cb [| ? ?]]]] |];
    intros H; try (exfalso; apply H; reflexivity).
  simpl. destruct st as [[m d] |]; [| reflexivity].
  destruct (lt _ d); reflexivity.
Qed.

(** One turn of the loop on a member without three channels. *)
Lemma closest_step_undefined (r g b : Z) (st : option (RedditColor * F))
      (c : RedditColor) :
  Search.channels c = None ->
  closest_step (J := json) sqrt lt r g b st c
  = Raise (match lookup (value c) _color_map with
           | Some _ => ValueError
           | None => KeyError
           end).
Proof.
  unfold closest_step, to_tuple, Search.channels.
  destruct (lookup (value c) _color_map) as [[| cr [| cg [| cb [| ? ?]]]] |];
    intros H; try discriminate H; reflexivity.
Qed.

End SearchFacts.

Lemma closest_loop_defined (F : Type) (sqrt : Z -> F) (lt : F -> F -> bool)
      (r g b : Z) (cs : list Colors.RedditColor)
      (st : option (Colors.RedditColor * F)) :
  (forall c, In c cs -> Search.channels c <> None) ->
  exists st', Colors.closest_loop (J := json) sqrt lt r g b st cs = Ok st'.
Proof.
  revert st. induction cs as [| c cs IH]; intros st Hgood; simpl.
  - exists st. reflexivity.
  - rewrite closest_step_defined by (apply Hgood; left; reflexivity).
    simpl. apply IH. intros d Hd. apply Hgood. right. exact Hd.
Qed.

Lemma closest_loop_app (F : Type) (sqrt : Z -> F) (lt : F -> F -> bool)
      (r g b : Z) (pre rest : list Colors.RedditColor)
      (st : option (Colors.RedditColor * F)) :
  Colors.closest_loop (J := json) sqrt lt r g b st (pre ++ rest)
  = (st' <- Colors.closest_loop sqrt lt r g b st pre ;;
     Colors.closest_loop sqrt lt r g b st' rest).
Proof.
  revert st. induction pre as [| c pre IH]; intros st; simpl; [reflexivity |].
  destruct (Colors.closest_step sqrt lt r g b st c); simpl; auto.
Qed.

(** X5: the loop of [closest] stops at the first member without three
    channels, whatever comes after it and whatever it has found so far:
    with [KeyError] when [_color_map] has no entry for the member, with
    [ValueError] when the entry is not a tuple of three. *)
Theorem closest_loop_raises_at_undefined (F : Type) (sqrt : Z -> F)
  (lt : F -> F -> bool) (r g b : Z)
  (pre : list Colors.RedditColor) (c : Colors.RedditColor)
  (post : list Colors.RedditColor) (st : option (Colors.RedditColor * F))
  (Hpre : forall d, In d pre -> Search.channels d <> None)
  (Hc : Search.channels c = None) :
  Colors.closest_loop (J := json) sqrt lt r g b st (pre ++ c :: post)
  = Raise (match Colors.lookup (Colors.value c) Colors._color_map with
           | Some _ => ValueError
           | None => KeyError
           end).
Proof.
  rewrite closest_loop_app.
  destruct (closest_loop_defined F sqrt lt r g b pre st Hpre) as [st' ->].
  simpl. rewrite closest_step_undefined by exact Hc. reflexivity.
Qed.

Lemma closest_loop_raises_at_undefined_witness :
  (forall d, In d [Colors.RED; Colors.ORANGE; Colors.YELLOW; Colors.DARK_GREEN] ->
             Search.channels d <> None) /\
  Search.channels Colors.GREEN = None /\
  Colors.closest_loop (J := json) (fun z : Z => z) Z.ltb 0 0 0 None
    ([Colors.RED; Colors.ORANGE; Colors.YELLOW; Colors.DARK_GREEN]
       ++ Colors.GREEN :: [Colors.BLACK])
  = Raise KeyError.
Proof.
  assert (Hpre : forall d,
             In d [Colors.RED; Colors.ORANGE; Colors.YELLOW; Colors.DARK_GREEN] ->
             Search.channels d <> None).
  { intros d [<- | [<- | [<- | [<- | []]]]]; discriminate. }
  split; [exact Hpre |]. split; [reflexivity |].
  exact (closest_loop_raises_at_undefined Z (fun z => z) Z.ltb 0 0 0
           _ Colors.GREEN [Colors.BLACK] None Hpre eq_refl).
Defined.

(** ** Token refresh, the paths that reach the service *)

Section RefreshFacts.

Variable srv : Remote.
Variable u : User.t.
Variable r : string.

Hypothesis has_refresh : User.refresh u = Some r.
Hypothesis usable : User.no_refresh u = false.

Lemma refresh_token_request :
  User.refresh_token srv u
  = match getitem (access_token srv r) "access_token" with
    | Ok (JStr tok) =>
        (_ <- fst (User.get_username srv (User.with_token u tok)) ;; Ok tt,
         snd (User.get_username srv (User.with_token u tok)))
    | Ok _ => (Untyped, u)
    | Raise e => (Raise e, u)
    | Untyped => (Untyped, u)
    end.
Proof.
  unfold User.refresh_token. unfold User.no_refresh in usable.
  rewrite has_refresh in *. rewrite usable.
  destruct (getitem (access_token srv r) "access_token") as [[| | | tok | |] | |];
    try reflexivity.
  destruct (User.get_username srv (User.with_token u tok)); reflexivity.
Qed.

End RefreshFacts.

(** X6: with a usable refresh token, a token response that holds a
    string under [access_token] and an identity response, asked for with
    that new token, that holds a string under
    [subreddit.display_name_prefixed], [refresh_token] returns normally
    and leaves the account with the new token and the reported name;
    [id], [refresh] and [next] are as before. *)
Theorem refresh_token_success (srv : Remote) (u : User.t) (r tok n : string)
  (fs gs hs : list (string * json))
  (Hr : User.refresh u = Some r)
  (Husable : User.no_refresh u = false)
  (Htok : access_token srv r = JObj fs)
  (Hfs : assoc "access_token" fs = Some (JStr tok))
  (Hme : me srv tok = JObj gs)
  (Hgs : assoc "subreddit" gs = Some (JObj hs))
  (Hhs : assoc "display_name_prefixed" hs = Some (JStr n)) :
  User.refresh_token srv u
  = (Ok tt,
     {| User.id := User.id u; User.name := n; User.token := tok;
        User.refresh := User.refresh u; User.next := User.next u |}).
Proof.
  rewrite (refresh_token_request srv u r Hr Husable).
  rewrite Htok. simpl. rewrite Hfs.
  unfold User.get_username. simpl. rewrite Hme. simpl.
  rewrite Hgs. simpl. rewrite Hhs. reflexivity.
Qed.

Lemma refresh_token_success_witness :
  User.refresh Sample.carol = Some "r-carol"%string /\
  User.no_refresh Sample.carol = false /\
  User.refresh_token Sample.service Sample.carol
  = (Ok tt,
     {| User.id := "id-carol"; User.name := "u/x"; User.token := "fresh";
        User.refresh := Some "r-carol"%string; User.next := Some 100%Q |}).
Proof.
  split; [reflexivity |]. split; [reflexivity |].
  exact (refresh_token_success Sample.service Sample.carol
           "r-carol" "fresh" "u/x" _ _ _
           eq_refl eq_refl eq_refl eq_refl eq_refl eq_refl eq_refl).
Defined.

(** X7: when the token exchange succeeds but the identity response has
    no [subreddit] key, [refresh_token] raises [KeyError] and the
    account keeps the new access token all the same; its name and the
    rest are as before. *)
Theorem refresh_token_keeps_new_token (srv : Remote) (u : User.t)
  (r tok : string) (fs gs : list (string * json))
  (Hr : User.refresh u = Some r)
  (Husable : User.no_refresh u = false)
  (Htok : access_token srv r = JObj fs)
  (Hfs : assoc "access_token" fs = Some (JStr tok))
  (Hme : me srv tok = JObj gs)
  (Hgs : assoc "subreddit" gs = None) :
  User.refresh_token srv u = (Raise KeyError, User.with_token u tok).
Proof.
  rewrite (refresh_token_request srv u r Hr Husable).
  rewrite Htok. simpl. rewrite Hfs.
  unfold User.get_username. simpl. rewrite Hme. simpl.
  rewrite Hgs. reflexivity.
Qed.

Lemma refresh_token_keeps_new_token_witness :
  User.refresh Sample.carol = Some "r-carol"%string /\
  User.no_refresh Sample.carol = false /\
  User.refresh_token Sample.nameless Sample.carol
  = (Raise KeyError, User.with_token Sample.carol "fresh").
Proof.
  split; [reflexivity |]. split; [reflexivity |].
  exact (refresh_token_keeps_new_token Sample.nameless
           Sample.carol "r-carol" "fresh" _ _
           eq_refl eq_refl eq_refl eq_refl eq_refl eq_refl).
Defined.

(** X8: when the token response is an object without [access_token]
    (an error body, say), [refresh_token] raises [KeyError], makes no
    identity call that could change the account, and leaves the account
    as it was. *)
Theorem refresh_token_rejected (srv : Remote) (u : User.t) (r : string)
  (fs : list (string * json))
  (Hr : User.refresh u = Some r)
  (Husable : User.no_refresh u = false)
  (Htok : access_token srv r = JObj fs)
  (Hfs : assoc "access_token" fs = None) :
  User.refresh_token srv u = (Raise KeyError, u).
Proof.
  rewrite (refresh_token_request srv u r Hr Husable).
  rewrite Htok. simpl. rewrite Hfs. reflexivity.
Qed.

Lemma refresh_token_rejected_witness :
  User.refresh Sample.carol = Some "r-carol"%string /\
  User.no_refresh Sample.carol = false /\
  User.refresh_token Sample.mute Sample.carol = (Raise KeyError, Sample.carol).
Proof.
  split; [reflexivity |]. split; [reflexivity |].
  exact (refresh_token_rejected Sample.mute Sample.carol "r-carol" []
           eq_refl eq_refl eq_refl eq_refl).
Defined.

(** ** One placement, on every response *)

Section DecodingFacts.

Lemma decoding_bind {A B} (m : res A) (k : A -> res B) :
  Outcome.decoding m -> (forall a, Outcome.decoding (k a)) ->
  Outcome.decoding (bind m k).
Proof. destruct m; simpl; auto. Qed.

Lemma decoding_and_then (a b : res bool) :
  Outcome.decoding a -> Outcome.decoding b -> Outcome.decoding (a &&& b).
Proof.
  intros Ha Hb. unfold and_then. apply decoding_bind; [exact Ha |].
  intros []; [exact Hb | exact I].
Qed.

Lemma decoding_getitem (v : json) (k : string) : Outcome.decoding (getitem v k).
Proof.
  destruct v; simpl; auto. destruct (assoc k fields); simpl; auto.
Qed.

Lemma decoding_contains (k : string) (v : json) : Outcome.decoding (contains k v).
Proof. destruct v; simpl; auto. Qed.

Lemma decoding_iter (v : json) : Outcome.decoding (iter v).
Proof. destruct v; simpl; auto. Qed.

Lemma decoding_truediv (fl : Float) (v : json) (d : Q) :
  Outcome.decoding (truediv fl v d).
Proof.
  destruct v; simpl; auto.
  - destruct (fdiv fl _ d); simpl; auto.
  - destruct (fdiv fl q d); simpl; auto.
Qed.

Lemma decoding_Ok {A} (a : A) : Outcome.decoding (Ok (J := json) a).
Proof. exact I. Qed.

End DecodingFacts.

Create HintDb decoding.

#[local] Hint Resolve decoding_bind decoding_and_then decoding_getitem
  decoding_contains decoding_iter decoding_truediv decoding_Ok : decoding.

Section PutOutcome.

Local Open Scope Q_scope.

Variable fl : Float.
Variable now : Q.
Variable u : User.t.

Lemma cooldown_with_next (q t : Q) :
  User.cooldown (User.with_next u q) t == q - t.
Proof.
  unfold User.cooldown. rewrite next_or_0_eq. reflexivity.
Qed.

Lemma ready_with_next (q t : Q) :
  Pool.is_ready t (User.with_next u q) = true <-> q <= t.
Proof.
  unfold Pool.is_ready. rewrite Qleb_le, cooldown_with_next.
  split; intros H; lra.
Qed.

Lemma settle_plausible (q : Q) (ret : bool) :
  fsub fl q now <= User.month ->
  User.settle fl now u q ret = (Ok (Return ret), User.with_next u q).
Proof.
  intros H. unfold User.settle.
  apply Qltb_ge in H. rewrite H, andb_false_r. reflexivity.
Qed.

Lemma settle_outcome (q : Q) (ret : bool) :
  Outcome.of_loop fl now u (User.settle fl now u q ret).
Proof.
  unfold User.settle, Outcome.of_loop.
  destruct (negb (Qeq_bool q 0) && Qltb User.month (fsub fl q now)) eqn:E.
  - right; right; left. exists q. split; [reflexivity |].
    apply andb_true_iff in E. apply Qltb_lt. tauto.
  - right; left. exists ret, q. reflexivity.
Qed.

Ltac failed e := right; right; right; exists e; split; [reflexivity | tauto].

Lemma put_acts_outcome (acts : list json) :
  Outcome.of_loop fl now u (User.put_acts fl now u acts).
Proof.
  induction acts as [| act acts IH]; simpl; [left; reflexivity |].
  match goal with
  | |- context [match ?m with Ok _ => _ | Raise _ => _ | Untyped => _ end] =>
      assert (Hm : Outcome.decoding m) by auto with decoding;
      destruct m as [[|] | e |] eqn:Em
  end; try (exfalso; exact Hm).
  - match goal with
    | |- context [match ?m with Ok _ => _ | Raise _ => _ | Untyped => _ end] =>
        assert (Hq : Outcome.decoding m) by auto 6 with decoding;
        destruct m as [q | e |] eqn:Eq
    end; try (exfalso; exact Hq).
    + apply settle_outcome.
    + simpl in Hq. failed e.
  - exact IH.
  - simpl in Hm. failed e.
Qed.

Lemma put_errs_outcome (errs : list json) :
  Outcome.of_loop fl now u (User.put_errs fl now u errs).
Proof.
  induction errs as [| err errs IH]; simpl; [left; reflexivity |].
  match goal with
  | |- context [match ?m with Ok _ => _ | Raise _ => _ | Untyped => _ end] =>
      assert (Hm : Outcome.decoding m) by auto 6 with decoding;
      destruct m as [[|] | e |] eqn:Em
  end; try (exfalso; exact Hm).
  - match goal with
    | |- context [match ?m with Ok _ => _ | Raise _ => _ | Untyped => _ end] =>
        assert (Hq : Outcome.decoding m) by auto 6 with decoding;
        destruct m as [q | e |] eqn:Eq
    end; try (exfalso; exact Hq).
    + apply settle_outcome.
    + simpl in Hq. failed e.
  - exact IH.
  - simpl in Hm. failed e.
Qed.

Lemma put_data_outcome (answ : json) :
  Outcome.of_loop fl now u (User.put_data fl now u answ).
Proof.
  unfold User.put_data.
  match goal with
  | |- context [match ?m with Ok _ => _ | Raise _ => _ | Untyped => _ end] =>
      assert (Hm : Outcome.decoding m) by auto 6 with decoding;
      destruct m as [[|] | e |] eqn:Em
  end; try (exfalso; exact Hm).
  - match goal with
    | |- context [match ?m with Ok _ => _ | Raise _ => _ | Untyped => _ end] =>
        assert (Hq : Outcome.decoding m) by auto 8 with decoding;
        destruct m as [acts | e |] eqn:Eq
    end; try (exfalso; exact Hq).
    + apply put_acts_outcome.
    + simpl in Hq. failed e.
  - left; reflexivity.
  - simpl in Hm. failed e.
Qed.

Lemma put_errors_outcome (answ : json) :
  Outcome.of_loop fl now u (User.put_errors fl now u answ).
Proof.
  unfold User.put_errors.
  match goal with
  | |- context [match ?m with Ok _ => _ | Raise _ => _ | Untyped => _ end] =>
      assert (Hm : Outcome.decoding m) by auto 6 with decoding;
      destruct m as [[|] | e |] eqn:Em
  end; try (exfalso; exact Hm).
  - match goal with
    | |- context [match ?m with Ok _ => _ | Raise _ => _ | Untyped => _ end] =>
        assert (Hq : Outcome.decoding m) by auto 6 with decoding;
        destruct m as [errs | e |] eqn:Eq
    end; try (exfalso; exact Hq).
    + apply put_errs_outcome.
    + simpl in Hq. failed e.
  - left; reflexivity.
  - simpl in Hm. failed e.
Qed.

Lemma decoding_unauthorized (answ : json) :
  Outcome.decoding (User.unauthorized answ).
Proof. unfold User.unauthorized. auto 12 with decoding. Qed.

End PutOutcome.

Lemma of_value_cases (v : Z) :
  (exists c, Colors.of_value (J := json) v = Ok c) \/
  Colors.of_value (J := json) v = Raise ValueError.
Proof.
  unfold Colors.of_value.
  destruct (find (fun c => Colors.value c =? v) Colors.members) as [c |];
    [left; exists c | right]; reflexivity.
Qed.

(** Every run of [put], sorted by how it ends. *)
Lemma put_classified (fl : Float) (srv : Remote) (now : Q) (u : User.t)
      (color x y : Z) :
  User.put fl srv now u color x y = (Ok None, u) \/
  (exists b q,
      User.put fl srv now u color x y = (Ok (Some b), User.with_next u q)) \/
  (exists q,
      User.put fl srv now u color x y
      = (Raise Outcome.rate_limited, User.with_next u q) /\
      (User.month < fsub fl q now)%Q) \/
  (exists e,
      User.put fl srv now u color x y = (Raise e, u) /\
      (e = ValueError \/ e = KeyError \/ e = TypeError \/ e = OverflowError \/
       e = UnauthorizedError
             (Str (set_pixel srv (User.token u) x y color 0)) true)).
Proof.
  unfold User.put.
  destruct (of_value_cases color) as [[c ->] | ->];
    [| right; right; right; exists ValueError; auto].
  set (answ := set_pixel srv (User.token u) x y color 0).
  pose proof (decoding_unauthorized answ) as Hun.
  destruct (User.unauthorized answ) as [[|] | e |]; simpl in Hun;
    try (exfalso; exact Hun).
  - right; right; right. eexists. split; [reflexivity |]. tauto.
  - destruct (put_data_outcome fl now u answ)
      as [-> | [[b [q ->]] | [[q [-> Hq]] | [e [-> He]]]]].
    + destruct (put_errors_outcome fl now u answ)
        as [-> | [[b [q ->]] | [[q [-> Hq]] | [e [-> He]]]]].
      * left. reflexivity.
      * right; left. exists b, q. reflexivity.
      * right; right; left. exists q. auto.
      * right; right; right. exists e. split; [reflexivity | tauto].
    + right; left. exists b, q. reflexivity.
    + right; right; left. exists q. auto.
    + right; right; right. exists e. split; [reflexivity | tauto].
  - right; right; right. exists e. split; [reflexivity | tauto].
Qed.

(** X9: every run of [put] ends in one of four ways.  It returns
    nothing and leaves the account untouched; or it returns a boolean
    after setting [next]; or it raises the error of a cooldown beyond 31
    days after setting [next] to a value whose float distance from [now]
    is more than 31 days; or it raises [ValueError], [KeyError],
    [TypeError], [OverflowError] or the refreshable [UnauthorizedError]
    built from the response, with the account untouched.  In every case
    [id], [name], [token] and [refresh] are as before. *)
Theorem put_outcome (fl : Float) (srv : Remote) (now : Q) (u : User.t)
  (color x y : Z) :
  (User.put fl srv now u color x y = (Ok None, u) \/
   (exists b q,
       User.put fl srv now u color x y = (Ok (Some b), User.with_next u q)) \/
   (exists q,
       User.put fl srv now u color x y
       = (Raise Outcome.rate_limited, User.with_next u q) /\
       (User.month < fsub fl q now)%Q) \/
   (exists e,
       User.put fl srv now u color x y = (Raise e, u) /\
       (e = ValueError \/ e = KeyError \/ e = TypeError \/ e = OverflowError \/
        e = UnauthorizedError
              (Str (set_pixel srv (User.token u) x y color 0)) true))) /\
  User.id (snd (User.put fl srv now u color x y)) = User.id u /\
  User.name (snd (User.put fl srv now u color x y)) = User.name u /\
  User.token (snd (User.put fl srv now u color x y)) = User.token u /\
  User.refresh (snd (User.put fl srv now u color x y)) = User.refresh u.
Proof.
  split; [apply put_classified |].
  destruct (put_classified fl srv now u color x y)
    as [-> | [[b [q ->]] | [[q [-> _]] | [e [-> _]]]]];
    repeat split; reflexivity.
Qed.

(** X10: a colour index that is no member's value makes [put] raise
    [ValueError] before anything is sent: the result does not depend on
    the service and the account is untouched. *)
Theorem put_invalid_colour (fl : Float) (srv : Remote) (now : Q) (u : User.t)
  (color x y : Z)
  (Hcolor : forall c, Colors.value c <> color) :
  User.put fl srv now u color x y = (Raise ValueError, u).
Proof.
  unfold User.put. rewrite of_value_not_member by exact Hcolor. reflexivity.
Qed.

Lemma put_invalid_colour_witness :
  (forall c, Colors.value c <> 5) /\
  User.put Sample.exact Sample.service 100 Sample.alice 5 0 0 = (Raise ValueError, Sample.alice).
Proof.
  assert (H : forall c, Colors.value c <> 5) by (intros c; destruct c; discriminate).
  split; [exact H |].
  exact (put_invalid_colour Sample.exact Sample.service 100 Sample.alice 5 0 0 H).
Defined.

(** ** One placement, by response *)

(** X11: a response whose [success] is false and whose [error.reason] is
    ["UNAUTHORIZED"] makes [put] raise the refreshable
    [UnauthorizedError], built from the whole response, and leave the
    account untouched, whatever else the response holds: a cooldown in
    its data or errors is not read. *)
Theorem put_unauthorized_first (fl : Float) (srv : Remote) (now : Q) (u : User.t)
  (color x y : Z) (c : Colors.RedditColor)
  (fs es : list (string * json)) (s : json)
  (Hcolor : Colors.of_value (J := json) color = Ok c)
  (Hansw : set_pixel srv (User.token u) x y color 0 = JObj fs)
  (Hs : assoc "success" fs = Some s)
  (Hfalse : truthy s = false)
  (He : assoc "error" fs = Some (JObj es))
  (Hreason : assoc "reason" es = Some (JStr "UNAUTHORIZED")) :
  User.put fl srv now u color x y
  = (Raise (UnauthorizedError (Str (JObj fs)) true), u).
Proof.
  assert (Hun : User.unauthorized (JObj fs) = Ok true).
  { assert (Hes : truthy (JObj es) = true)
      by (destruct es; [discriminate Hreason | reflexivity]).
    unfold User.unauthorized, and_then, contains, getitem.
    rewrite Hs. cbn [bind negb]. rewrite Hfalse. cbn [bind negb]. rewrite He.
    cbn [bind]. rewrite Hes. cbn [bind]. rewrite Hreason. reflexivity. }
  unfold User.put. rewrite Hcolor, Hansw, Hun. reflexivity.
Qed.

Lemma put_unauthorized_first_witness :
  Colors.of_value (J := json) 27 = Ok Colors.BLACK /\
  User.put Sample.exact (Sample.always (JObj Sample.refusal_fields)) 100 Sample.alice 27 0 0
  = (Raise (UnauthorizedError (Str (JObj Sample.refusal_fields)) true),
     Sample.alice).
Proof.
  split; [reflexivity |].
  exact (put_unauthorized_first Sample.exact (Sample.always (JObj Sample.refusal_fields))
           100 Sample.alice 27 0 0 Colors.BLACK
           Sample.refusal_fields [ ("reason"%string, JStr "UNAUTHORIZED") ]
           (JBool false) eq_refl eq_refl eq_refl eq_refl eq_refl eq_refl).
Defined.

(** X12: take a response without the [UNAUTHORIZED] marker in which no
    act of the data envelope carries a time stamp (or which has no data
    envelope).  The first error whose extensions carry a numeric time
    stamp decides: when its float quotient by 1000 lies, by float
    subtraction, at most 31 days after [now], [put] stores the quotient
    in [next] and returns false; errors before it without a time stamp
    are passed over and those after it are not read.  From then on the
    account is ready exactly at the times that are not before the
    stored value. *)
Theorem put_error_cooldown (fl : Float) (srv : Remote) (now : Q) (u : User.t)
  (color x y : Z) (c : Colors.RedditColor)
  (acts pre rest : list json) (err : json) (ms q : Q)
  (Hcolor : Colors.of_value (J := json) color = Ok c)
  (Hmarker : User.unauthorized (set_pixel srv (User.token u) x y color 0)
             = Ok false)
  (Hacts : Shapes.acts_of (set_pixel srv (User.token u) x y color 0)
           = Some acts)
  (Hsilent : forallb Shapes.act_silent acts = true)
  (Herrs : Shapes.errs_of (set_pixel srv (User.token u) x y color 0)
           = Some (pre ++ err :: rest))
  (Hpre : forallb Shapes.err_silent pre = true)
  (Herr : Shapes.err_carries err = Some (JNum ms))
  (Hdiv : fdiv fl ms 1000 = Some q)
  (Hnear : (fsub fl q now <= User.month)%Q) :
  User.put fl srv now u color x y = (Ok (Some false), User.with_next u q) /\
  forall t : Q,
    Pool.is_ready t (User.with_next u q) = true <-> (q <= t)%Q.
Proof.
  split; [| intros t; apply ready_with_next].
  unfold User.put. rewrite Hcolor, Hmarker.
  rewrite (put_data_acts fl now u _ _ Hacts).
  rewrite put_acts_silent by exact Hsilent.
  rewrite (put_errors_errs fl now u _ _ Herrs).
  rewrite put_errs_pass by exact Hpre.
  rewrite (put_errs_carrier fl now u err rest ms q Herr Hdiv).
  rewrite settle_plausible by exact Hnear. reflexivity.
Qed.

Lemma put_error_cooldown_witness :
  Colors.of_value (J := json) 27 = Ok Colors.BLACK /\
  User.unauthorized (JObj Sample.refused_fields) = Ok false /\
  Shapes.acts_of (JObj Sample.refused_fields) = Some [] /\
  Shapes.errs_of (JObj Sample.refused_fields)
  = Some (Sample.refused_pre ++ Sample.refused_err :: []) /\
  forallb Shapes.err_silent Sample.refused_pre = true /\
  Shapes.err_carries Sample.refused_err = Some (JNum 400000) /\
  (fsub Sample.exact (400000 / 1000) 100 <= User.month)%Q /\
  User.put Sample.exact (Sample.always (JObj Sample.refused_fields))
    100 Sample.carol 27 0 0
  = (Ok (Some false), User.with_next Sample.carol (400000 / 1000)%Q).
Proof.
  assert (Hnear : (fsub Sample.exact (400000 / 1000) 100 <= User.month)%Q)
    by (intros H; discriminate H).
  split; [reflexivity |]. split; [reflexivity |]. split; [reflexivity |].
  split; [reflexivity |]. split; [reflexivity |]. split; [reflexivity |].
  split; [exact Hnear |].
  exact (proj1 (put_error_cooldown Sample.exact
                  (Sample.always (JObj Sample.refused_fields))
                  100 Sample.carol 27 0 0 Colors.BLACK
                  [] Sample.refused_pre [] Sample.refused_err
                  400000 (400000 / 1000)%Q
                  eq_refl eq_refl eq_refl eq_refl eq_refl eq_refl eq_refl
                  eq_refl Hnear)).
Defined.



(** X14: a response without [success] whose [data] is a non-empty object
    with no [act] key makes [put] raise [KeyError] and leave the account
    untouched; the errors of the response, and any cooldown in them,
    are not reached. *)
Theorem put_data_without_act (fl : Float) (srv : Remote) (now : Q) (u : User.t)
  (color x y : Z) (c : Colors.RedditColor)
  (fs ds : list (string * json))
  (Hcolor : Colors.of_value (J := json) color = Ok c)
  (Hansw : set_pixel srv (User.token u) x y color 0 = JObj fs)
  (Hsuccess : assoc "success" fs = None)
  (Hdata : assoc "data" fs = Some (JObj ds))
  (Hds : ds <> [])
  (Hact : assoc "act" ds = None) :
  User.put fl srv now u color x y = (Raise KeyError, u).
Proof.
  unfold User.put. rewrite Hcolor, Hansw.
  unfold User.unauthorized, and_then, contains. simpl. rewrite Hsuccess. simpl.
  unfold User.put_data, and_then, contains, getitem. rewrite Hdata. simpl.
  destruct ds as [| d0 ds']; [contradiction |].
  simpl truthy. cbv iota. rewrite Hact. reflexivity.
Qed.

Lemma put_data_without_act_witness :
  Colors.of_value (J := json) 27 = Ok Colors.BLACK /\
  User.put Sample.exact (Sample.always (JObj Sample.actless_fields)) 100 Sample.alice 27 0 0
  = (Raise KeyError, Sample.alice).
Proof.
  split; [reflexivity |].
  refine (put_data_without_act Sample.exact (Sample.always (JObj Sample.actless_fields))
            100 Sample.alice 27 0 0 Colors.BLACK
            Sample.actless_fields [ ("id"%string, JStr "x") ]
            eq_refl eq_refl eq_refl eq_refl _ eq_refl).
  discriminate.
Defined.

(** ** Loading the pool *)

Section LoadFacts.

Variable uuid4 : nat -> string.

Lemma init_id_nonempty (fresh n tok : string) (r : option string)
      (nx : option Q) (i : option string) :
  fresh <> ""%string -> User.id (User.init fresh n tok r nx i) <> ""%string.
Proof.
  intros Hfresh. unfold User.init. simpl.
  destruct i as [i |]; [| exact Hfresh].
  destruct (String.eqb i "") eqn:E; [exact Hfresh |].
  apply String.eqb_neq. exact E.
Qed.

(** What a load that succeeds has built. *)
Lemma load_invariant (els : list json) (k : nat) (users : Pool.t) :
  (forall j, uuid4 j <> ""%string) ->
  Pool.load uuid4 k els = Ok users ->
  List.length users = List.length els /\
  forall v, In v users -> User.id v <> ""%string.
Proof.
  intros Hfresh. revert k users.
  induction els as [| el els IH]; intros k users H; simpl in H.
  - injection H as <-. split; [reflexivity |]. intros v [].
  - destruct (Pool.init_args el) as [[[[[n tok] r] nx] i] | |];
      simpl in H; try discriminate H.
    destruct (Pool.as_str n) as [name_ | |]; simpl in H; try discriminate H.
    destruct (Pool.as_str tok) as [token_ | |]; simpl in H; try discriminate H.
    destruct (Pool.as_opt_str r) as [refresh_ | |]; simpl in H; try discriminate H.
    destruct (Pool.as_opt_num nx) as [next_ | |]; simpl in H; try discriminate H.
    destruct (Pool.as_opt_str i) as [id_ | |]; simpl in H; try discriminate H.
    destruct (Pool.load uuid4 (if Pool.calls_uuid4 id_ then S k else k) els)
      as [us | |] eqn:E; simpl in H; try discriminate H.
    injection H as <-. destruct (IH _ _ E) as [Hlen Hids].
    split; [simpl; rewrite Hlen; reflexivity |].
    intros v [<- | Hv]; [| auto].
    apply init_id_nonempty. apply Hfresh.
Qed.

(** Stored records of accounts, read back ahead of what follows. *)
Lemma load_serialized_app (k : nat) (users : Pool.t) (rest : list json) :
  (forall v, In v users -> User.id v <> ""%string) ->
  Pool.load uuid4 k (map User.as_dict users ++ rest)
  = (us <- Pool.load uuid4 k rest ;;
     Ok (map Stored.falsy_to_absent users ++ us)).
Proof.
  induction users as [| v users IH]; intros Hid; cbn [map app].
  - destruct (Pool.load uuid4 k rest); reflexivity.
  - rewrite load_as_dict by (apply Hid; left; reflexivity).
    rewrite IH by (intros w Hw; apply Hid; right; exact Hw).
    destruct (Pool.load uuid4 k rest); reflexivity.
Qed.

Lemma load_nameless (k : nat) (fs : list (string * json)) (rest : list json) :
  assoc "name" fs = None \/ assoc "token" fs = None ->
  Pool.load uuid4 k (JObj fs :: rest) = Raise KeyError.
Proof.
  intros H. simpl. unfold Pool.init_args, getitem.
  destruct (assoc "name" fs) as [n |].
  - destruct H as [H | H]; [discriminate H |]. rewrite H. reflexivity.
  - reflexivity.
Qed.

End LoadFacts.

(** X15: stored records that hold only a name and a token are loaded in
    order, with no refresh token and no cooldown, and each gets the
    result of its own call of [uuid4] as [id]: the first call for the
    first record, the second for the second, and so on. *)
Theorem load_fresh_ids (uuid4 : nat -> string) (l : list (string * string)) :
  Pool.init uuid4
    (Some (JArr (map (fun nt => JObj [ ("name"%string, JStr (fst nt));
                                       ("token"%string, JStr (snd nt)) ]) l)))
  = Ok (map (fun knt =>
               {| User.id := uuid4 (fst knt);
                  User.name := fst (snd knt);
                  User.token := snd (snd knt);
                  User.refresh := None;
                  User.next := None |})
            (combine (seq 0 (List.length l)) l)).
Proof.
  unfold Pool.init. simpl bind. generalize 0%nat as k.
  induction l as [| [n tok] l IH]; intros k; [reflexivity |].
  simpl. rewrite IH. reflexivity.
Qed.

(** X16: a load that succeeds builds one account for each stored record,
    and, given that [uuid4] never yields the empty string, every
    account it builds has a non-empty [id]. *)
Theorem load_ids_nonempty (uuid4 : nat -> string) (els : list json)
  (users : Pool.t)
  (Hfresh : forall k, uuid4 k <> ""%string)
  (Hload : Pool.init uuid4 (Some (JArr els)) = Ok users) :
  List.length users = List.length els /\
  forall v, In v users -> User.id v <> ""%string.
Proof.
  unfold Pool.init in Hload. simpl in Hload.
  exact (load_invariant uuid4 els 0 users Hfresh Hload).
Qed.

Lemma load_ids_nonempty_witness :
  (forall k, Sample.uuids k <> ""%string) /\
  Pool.init Sample.uuids (Some (JArr Sample.eve_records)) = Ok [Sample.eve] /\
  List.length [Sample.eve] = List.length Sample.eve_records /\
  forall v, In v [Sample.eve] -> User.id v <> ""%string.
Proof.
  assert (Hfresh : forall k, Sample.uuids k <> ""%string)
    by (intros k; discriminate).
  split; [exact Hfresh |]. split; [reflexivity |].
  exact (load_ids_nonempty Sample.uuids Sample.eve_records [Sample.eve]
           Hfresh eq_refl).
Defined.

(** X17: whatever document a pool was loaded from, saving it and
    loading it again gives the same accounts with empty values read as
    absent, given that [uuid4] never yields the empty string: no stored
    [id] is replaced and no account is lost. *)
Theorem load_save_load (uuid4 uuid4' : nat -> string) (storage : option json)
  (users : Pool.t)
  (Hfresh : forall k, uuid4 k <> ""%string)
  (Hload : Pool.init uuid4 storage = Ok users) :
  Pool.init uuid4' (Some (Pool.serialize users))
  = Ok (map Stored.falsy_to_absent users).
Proof.
  assert (Hid : forall v, In v users -> User.id v <> ""%string).
  { destruct storage as [doc |]; simpl in Hload.
    - destruct (iter doc) as [els | |]; simpl in Hload; try discriminate Hload.
      exact (proj2 (load_invariant uuid4 els 0 users Hfresh Hload)).
    - injection Hload as <-. intros v []. }
  unfold Pool.init, Pool.serialize. simpl.
  apply load_serialized. exact Hid.
Qed.

Lemma load_save_load_witness :
  (forall k, Sample.uuids k <> ""%string) /\
  Pool.init Sample.uuids (Some (JArr Sample.eve_records)) = Ok [Sample.eve] /\
  Pool.init (fun _ => "other"%string) (Some (Pool.serialize [Sample.eve]))
  = Ok [ {| User.id := "uuid"; User.name := "eve"; User.token := "t";
            User.refresh := None; User.next := None |} ].
Proof.
  assert (Hfresh : forall k, Sample.uuids k <> ""%string)
    by (intros k; discriminate).
  split; [exact Hfresh |]. split; [reflexivity |].
  exact (load_save_load Sample.uuids (fun _ => "other"%string)
           (Some (JArr Sample.eve_records)) [Sample.eve] Hfresh eq_refl).
Defined.

(** X18: a stored record without [name] or without [token] makes the
    load raise [KeyError], also when it comes after records that are
    complete and before others: no pool is built from the rest. *)
Theorem load_missing_field (uuid4 : nat -> string) (users : Pool.t)
  (fs : list (string * json)) (rest : list json)
  (Hid : forall v, In v users -> User.id v <> ""%string)
  (Hmissing : assoc "name" fs = None \/ assoc "token" fs = None) :
  Pool.init uuid4 (Some (JArr (map User.as_dict users ++ JObj fs :: rest)))
  = Raise KeyError.
Proof.
  unfold Pool.init. simpl bind.
  rewrite load_serialized_app by exact Hid.
  rewrite load_nameless by exact Hmissing. reflexivity.
Qed.

Lemma load_missing_field_witness :
  (forall v, In v [Sample.alice] -> User.id v <> ""%string) /\
  Pool.init Sample.uuids
    (Some (JArr (map User.as_dict [Sample.alice]
                   ++ JObj [ ("name"%string, JStr "eve") ]
                   :: [User.as_dict Sample.carol])))
  = Raise KeyError.
Proof.
  assert (Hid : forall v, In v [Sample.alice] -> User.id v <> ""%string)
    by (intros v [<- | []]; discriminate).
  split; [exact Hid |].
  exact (load_missing_field Sample.uuids [Sample.alice]
           [ ("name"%string, JStr "eve") ] [User.as_dict Sample.carol]
           Hid (or_intror eq_refl)).
Defined.

(** X19: in a stored record, a [refresh] or [next] that is missing, that
    is [null], or that is the string ["null"] is loaded as absent, in
    any combination of the two fields. *)
Theorem load_null_as_absent (uuid4 : nat -> string) (n tok i : string)
  (rv nv : option json)
  (Hi : i <> ""%string)
  (Hrv : rv = None \/ rv = Some JNull \/ rv = Some (JStr "null"))
  (Hnv : nv = None \/ nv = Some JNull \/ nv = Some (JStr "null")) :
  Pool.init uuid4
    (Some (JArr [ JObj ([ ("name"%string, JStr n);
                          ("token"%string, JStr tok);
                          ("id"%string, JStr i) ]
                        ++ match rv with
                           | Some v => [ ("refresh"%string, v) ]
                           | None => []
                           end
                        ++ match nv with
                           | Some v => [ ("next"%string, v) ]
                           | None => []
                           end) ]))
  = Ok [ {| User.id := i; User.name := n; User.token := tok;
            User.refresh := None; User.next := None |} ].
Proof.
  assert (E : String.eqb i "" = false) by (apply String.eqb_neq; exact Hi).
  destruct Hrv as [-> | [-> | ->]]; destruct Hnv as [-> | [-> | ->]];
    cbn; unfold User.init; rewrite E; reflexivity.
Qed.

Lemma load_null_as_absent_witness :
  "id-bob"%string <> ""%string /\
  Pool.init Sample.uuids
    (Some (JArr [ JObj ([ ("name"%string, JStr "bob");
                          ("token"%string, JStr "tok-bob");
                          ("id"%string, JStr "id-bob") ]
                        ++ [ ("refresh"%string, JStr "null") ]
                        ++ [ ("next"%string, JNull) ]) ]))
  = Ok [ {| User.id := "id-bob"; User.name := "bob"; User.token := "tok-bob";
            User.refresh := None; User.next := None |} ].
Proof.
  assert (Hi : "id-bob"%string <> ""%string) by discriminate.
  split; [exact Hi |].
  exact (load_null_as_absent Sample.uuids "bob" "tok-bob" "id-bob"
           (Some (JStr "null")) (Some JNull) Hi
           (or_intror (or_intror eq_refl)) (or_intror (or_introl eq_refl))).
Defined.

(** ** Scheduling, further *)

Section SchedulingMore.

Local Open Scope Q_scope.

Variable now : Q.

Lemma ready_filter (users : Pool.t) :
  Pool.ready users now
  = Z.of_nat (List.length (filter (Pool.is_ready now) users)).
Proof. apply ready_spec. Qed.

Lemma any_false_all (users : Pool.t) :
  Pool.any users now = false
  <-> forall v, In v users -> Pool.is_ready now v = false.
Proof.
  unfold Pool.any. split.
  - intros H v Hv. destruct (Pool.is_ready now v) eqn:E; [| reflexivity].
    assert (Hex : existsb (Pool.is_ready now) users = true)
      by (apply existsb_exists; exists v; auto).
    congruence.
  - intros H. destruct (existsb (Pool.is_ready now) users) eqn:E; [| reflexivity].
    apply existsb_exists in E. destruct E as [v [Hv Hr]].
    rewrite (H v Hv) in Hr. discriminate Hr.
Qed.

(** The loop of [best] from an account already chosen: it keeps that
    account if no later one has a strictly shorter cooldown, and
    otherwise ends on the first of the later ones with the shortest. *)
Lemma best_loop_first (users : Pool.t) (b0 : User.t) :
  exists b,
    snd (fold_left (Pool.best_step now) users
           (Some (User.cooldown b0 now), Some b0)) = Some b /\
    User.cooldown b now <= User.cooldown b0 now /\
    ((b = b0 /\
      forall v, In v users -> User.cooldown b0 now <= User.cooldown v now)
     \/
     (exists pre post,
         users = pre ++ b :: post /\
         User.cooldown b now < User.cooldown b0 now /\
         (forall v, In v pre -> User.cooldown b now < User.cooldown v now) /\
         (forall v, In v post -> User.cooldown b now <= User.cooldown v now))).
Proof.
  revert b0. induction users as [| v users IH]; intros b0; simpl.
  - exists b0. split; [reflexivity |]. split; [apply Qle_refl |]. left.
    split; [reflexivity |]. intros v [].
  - unfold Pool.best_step at 2. simpl.
    destruct (Qltb (User.cooldown v now) (User.cooldown b0 now)) eqn:E.
    + apply Qltb_lt in E.
      destruct (IH v) as [b [Hb [Hle Hcase]]].
      exists b. split; [exact Hb |]. split; [lra |]. right.
      destruct Hcase as [[-> Hmin] | [pre [post [-> [Hlt [Hpre Hpost]]]]]].
      * exists [], users. repeat split; auto. intros w [].
      * exists (v :: pre), post. repeat split; auto; try lra.
        intros w [<- | Hw]; [lra | auto].
    + apply Qltb_ge in E.
      destruct (IH b0) as [b [Hb [Hle Hcase]]].
      exists b. split; [exact Hb |]. split; [exact Hle |].
      destruct Hcase as [[-> Hmin] | [pre [post [-> [Hlt [Hpre Hpost]]]]]].
      * left. split; [reflexivity |]. intros w [<- | Hw]; [exact E | auto].
      * right. exists (v :: pre), post. repeat split; auto.
        intros w [<- | Hw]; [lra | auto].
Qed.

End SchedulingMore.

(** X20: [ready] counts at least 0 and at most the size of the pool, and
    it is positive exactly when [any] is true. *)
Theorem ready_bounds_any (users : Pool.t) (now : Q) :
  0 <= Pool.ready users now <= Z.of_nat (List.length users) /\
  (Pool.any users now = true <-> 0 < Pool.ready users now).
Proof.
  rewrite ready_filter. split.
  - pose proof (filter_length_le (Pool.is_ready now) users). lia.
  - split.
    + intros H. apply existsb_exists in H. destruct H as [v [Hv Hr]].
      assert (Hin : In v (filter (Pool.is_ready now) users))
        by (apply filter_In; auto).
      destruct (filter (Pool.is_ready now) users); [destruct Hin | simpl; lia].
    + intros H.
      destruct (filter (Pool.is_ready now) users) as [| v l] eqn:E;
        [simpl in H; lia |].
      assert (Hin : In v (filter (Pool.is_ready now) users))
        by (rewrite E; left; reflexivity).
      apply filter_In in Hin. apply existsb_exists. exists v. exact Hin.
Qed.

(** X21: the account [best] returns tells whether anyone is ready: some
    account of the pool is ready exactly when the cooldown of [best] is
    at most 0; on the empty pool [best] is [None] and nobody is ready. *)
Theorem best_ready_iff_any (users : Pool.t) (now : Q) :
  match Pool.best users now with
  | Some b => Pool.any users now = true <-> (User.cooldown b now <= 0)%Q
  | None => users = [] /\ Pool.any users now = false
  end.
Proof.
  destruct users as [| v users]; [split; reflexivity |].
  unfold Pool.best. simpl fold_left.
  destruct (best_loop_min now users v) as [b [Hb [Hin [Hle Hmin]]]].
  unfold Pool.best_step at 2. simpl fst. cbv iota. rewrite Hb.
  rewrite any_spec. split.
  - intros [w [Hw Hr]].
    assert (Hbw : (User.cooldown b now <= User.cooldown w now)%Q).
    { destruct Hw as [<- | Hw]; auto. }
    eapply Qle_trans; eauto.
  - intros Hr. exists b. split; [| exact Hr].
    destruct Hin as [-> | Hin]; [left | right]; auto.
Qed.

(** On a clock that stands still, reading it at every [u.cooldown] is
    reading it once. *)
Lemma best_clocked_still (clock : nat -> Q) (now : Q) (users : Pool.t)
      (cd : option Q) (usr : option User.t) (k : nat) :
  (forall j, clock j = now) ->
  fst (fold_left (Pool.best_step_clocked clock) users (cd, usr, k))
  = fold_left (Pool.best_step now) users (cd, usr).
Proof.
  intros Hclock. revert cd usr k.
  induction users as [| v users IH]; intros cd usr k; [reflexivity |].
  assert (Hstep : fst (Pool.best_step_clocked clock (cd, usr, k) v)
                  = Pool.best_step now (cd, usr) v).
  { unfold Pool.best_step_clocked, Pool.best_step. simpl fst.
    rewrite !Hclock. destruct cd as [c |]; [| reflexivity].
    destruct (Qltb (User.cooldown v now) c); reflexivity. }
  cbn [fold_left].
  destruct (Pool.best_step_clocked clock (cd, usr, k) v) as [[cd' usr'] k'].
  simpl in Hstep. rewrite <- Hstep. apply IH.
Qed.

(** X22: when every reading of the clock during the call gives the same
    time, [best] returns, among accounts with the same shortest
    cooldown, the one that comes first in the pool: every account before
    it has a strictly longer cooldown, every account after it one that
    is not shorter.  On a clock that advances between readings this
    fails: of two accounts with the same [next], the second is
    returned. *)
Theorem best_first_minimal (clock : nat -> Q) (now : Q) (users : Pool.t)
  (Hclock : forall k, clock k = now) :
  Pool.best_clocked clock users = Pool.best users now /\
  match users with
  | [] => Pool.best_clocked clock users = None
  | _ :: _ =>
      exists pre b post,
        users = pre ++ b :: post /\
        Pool.best_clocked clock users = Some b /\
        (forall v, In v pre -> (User.cooldown b now < User.cooldown v now)%Q) /\
        (forall v, In v post -> (User.cooldown b now <= User.cooldown v now)%Q)
  end /\
  Pool.best_clocked Sample.ticking [Sample.twin1; Sample.twin2]
  = Some Sample.twin2.
Proof.
  assert (Hsame : Pool.best_clocked clock users = Pool.best users now).
  { unfold Pool.best_clocked, Pool.best.
    rewrite (best_clocked_still clock now users None None 0 Hclock).
    reflexivity. }
  split; [exact Hsame |]. split; [| reflexivity].
  rewrite Hsame.
  destruct users as [| v users]; [reflexivity |].
  unfold Pool.best. simpl fold_left.
  unfold Pool.best_step at 2. simpl fst. cbv iota.
  destruct (best_loop_first now users v) as [b [Hb [Hle Hcase]]].
  destruct Hcase as [[-> Hmin] | [pre [post [-> [Hlt [Hpre Hpost]]]]]].
  - exists [], v, users. repeat split; auto. intros w [].
  - exists (v :: pre), b, post. repeat split; auto.
    intros w [<- | Hw]; auto.
Qed.

Lemma best_first_minimal_witness :
  (forall k, Sample.still k = 100%Q) /\
  Pool.best_clocked Sample.still [Sample.twin1; Sample.twin2]
  = Some Sample.twin1 /\
  Pool.best_clocked Sample.still [Sample.twin1; Sample.twin2]
  = Pool.best [Sample.twin1; Sample.twin2] 100.
Proof.
  assert (Hclock : forall k, Sample.still k = 100%Q) by reflexivity.
  split; [exact Hclock |]. split; [reflexivity |].
  exact (proj1 (best_first_minimal Sample.still 100
                  [Sample.twin1; Sample.twin2] Hclock)).
Defined.

(** ** Placement through the pool, further *)

(** X23: [Pool.put] returns false exactly when no account is ready, and
    then the pool is as it was; in every case the pool keeps its
    size. *)
Theorem pool_put_false_iff (fl : Float) (srv : Remote) (now : Q) (users : Pool.t)
  (color x y : Z) :
  (fst (Pool.put fl srv now users color x y) = Ok false
   <-> Pool.any users now = false) /\
  List.length (snd (Pool.put fl srv now users color x y)) = List.length users /\
  (Pool.any users now = false -> snd (Pool.put fl srv now users color x y) = users).
Proof.
  destruct (Pool.any users now) eqn:Hany.
  - destruct (first_ready_split now users Hany) as [pre [u [post [-> [Hpre Hu]]]]].
    rewrite put_skip by exact Hpre. rewrite put_head by exact Hu. simpl.
    split; [| split].
    + split; [| discriminate].
      destruct (fst (User.put fl srv now u color x y)); discriminate.
    + rewrite !length_app. reflexivity.
    + discriminate.
  - assert (Hall : forall v, In v users -> Pool.is_ready now v = false)
      by (apply any_false_all; exact Hany).
    rewrite put_none_ready by exact Hall. simpl.
    split; [split; reflexivity |]. split; reflexivity.
Qed.

(** X24: when the [put] of the first ready account returns (true, false
    or nothing) and leaves that account with a cooldown still ahead of
    [now], [Pool.put] returns true, that account alone changes, the
    count of ready accounts goes down by one, and a second [Pool.put]
    at the same clock reading passes over it and scans the accounts
    that follow. *)
Theorem pool_put_then_cooling (fl : Float) (srv : Remote) (now : Q)
  (color x y : Z) (pre : Pool.t) (u : User.t) (post : Pool.t)
  (r : option bool)
  (Hpre : forall v, In v pre -> (0 < User.cooldown v now)%Q)
  (Hu : (User.cooldown u now <= 0)%Q)
  (Hret : fst (User.put fl srv now u color x y) = Ok r)
  (Hcool : (0 < User.cooldown (snd (User.put fl srv now u color x y)) now)%Q) :
  Pool.put fl srv now (pre ++ u :: post) color x y
  = (Ok true, pre ++ snd (User.put fl srv now u color x y) :: post) /\
  Pool.ready (pre ++ snd (User.put fl srv now u color x y) :: post) now
  = Pool.ready (pre ++ u :: post) now - 1 /\
  Pool.put fl srv now
    (pre ++ snd (User.put fl srv now u color x y) :: post) color x y
  = (fst (Pool.put fl srv now post color x y),
     pre ++ snd (User.put fl srv now u color x y)
         :: snd (Pool.put fl srv now post color x y)).
Proof.
  assert (Hpre' : forall v, In v pre -> Pool.is_ready now v = false)
    by (intros v Hv; apply Qleb_gt; auto).
  assert (Hu' : Pool.is_ready now u = true) by (apply Qleb_le; exact Hu).
  set (u' := snd (User.put fl srv now u color x y)) in *.
  assert (Hcool' : Pool.is_ready now u' = false) by (apply Qleb_gt; exact Hcool).
  split; [| split].
  - rewrite put_skip by exact Hpre'. rewrite put_head by exact Hu'.
    rewrite Hret. reflexivity.
  - rewrite !ready_filter, !filter_app. simpl filter.
    rewrite Hcool', Hu', !length_app. simpl List.length. lia.
  - rewrite put_skip by exact Hpre'. simpl Pool.put. rewrite Hcool'.
    destruct (Pool.put fl srv now post color x y). reflexivity.
Qed.

Lemma pool_put_then_cooling_witness :
  (forall v, In v [Sample.bob] -> (0 < User.cooldown v 100)%Q) /\
  (User.cooldown Sample.carol 100 <= 0)%Q /\
  fst (User.put Sample.exact Sample.service 100 Sample.carol 27 0 0)
  = Ok (Some false) /\
  (0 < User.cooldown
         (snd (User.put Sample.exact Sample.service 100 Sample.carol 27 0 0))
         100)%Q /\
  Pool.put Sample.exact Sample.service 100
    ([Sample.bob] ++ Sample.carol :: [Sample.alice]) 27 0 0
  = (Ok true,
     [Sample.bob]
       ++ snd (User.put Sample.exact Sample.service 100 Sample.carol 27 0 0)
       :: [Sample.alice]).
Proof.
  assert (Hpre : forall v, In v [Sample.bob] -> (0 < User.cooldown v 100)%Q)
    by (intros v [<- | []]; reflexivity).
  assert (Hu : (User.cooldown Sample.carol 100 <= 0)%Q)
    by (intros H; discriminate H).
  assert (Hcool : (0 < User.cooldown
                         (snd (User.put Sample.exact Sample.service 100
                                 Sample.carol 27 0 0)) 100)%Q)
    by reflexivity.
  split; [exact Hpre |]. split; [exact Hu |]. split; [reflexivity |].
  split; [exact Hcool |].
  exact (proj1 (pool_put_then_cooling Sample.exact Sample.service 100 27 0 0
                  [Sample.bob] Sample.carol [Sample.alice] (Some false)
                  Hpre Hu eq_refl Hcool)).
Defined.

(** ** Adding and removing accounts *)

Section PoolFileFacts.

Variable files : PoolFile.fs.

Lemma write_same (path : string) (doc : json) :
  PoolFile.write files path doc path = Some doc.
Proof. unfold PoolFile.write. rewrite String.eqb_refl. reflexivity. Qed.

Lemma write_other (path p : string) (doc : json) :
  p <> path -> PoolFile.write files path doc p = files p.
Proof.
  intros H. unfold PoolFile.write.
  destruct (String.eqb p path) eqn:E; [| reflexivity].
  apply String.eqb_eq in E. contradiction.
Qed.

Lemma kept_other_names (users : Pool.t) (n : string) :
  (forall v, In v users -> User.name v <> n) ->
  filter (fun v => negb (String.eqb (User.name v) n)) users = users.
Proof.
  induction users as [| v users IH]; intros H; simpl; [reflexivity |].
  assert (E : String.eqb (User.name v) n = false)
    by (apply String.eqb_neq; apply H; left; reflexivity).
  rewrite E. simpl. rewrite IH by (intros w Hw; apply H; right; exact Hw).
  reflexivity.
Qed.

End PoolFileFacts.

(** X25: [add_user] puts the account at the end of the pool and writes
    the whole pool to ["pool.json"], whatever path the pool was loaded
    from; every other file is left as it was; and a pool opened from
    ["pool.json"] afterwards holds the same accounts in the same order,
    empty values read as absent. *)
Theorem add_user_persists (uuid4 : nat -> string) (users : Pool.t)
  (u : User.t) (files : PoolFile.fs)
  (Hid : forall v, In v (users ++ [u]) -> User.id v <> ""%string) :
  fst (PoolFile.add_user users u files) = users ++ [u] /\
  PoolFile.open uuid4 (snd (PoolFile.add_user users u files)) "pool.json"
  = Ok (map Stored.falsy_to_absent (users ++ [u])) /\
  forall path : string,
    path <> "pool.json"%string ->
    snd (PoolFile.add_user users u files) path = files path.
Proof.
  unfold PoolFile.add_user, PoolFile.serialize, PoolFile.default_storage.
  simpl fst. simpl snd. split; [reflexivity |]. split.
  - unfold PoolFile.open. rewrite write_same.
    unfold Pool.init, Pool.serialize. simpl bind.
    apply load_serialized. exact Hid.
  - intros path Hpath. apply write_other. exact Hpath.
Qed.

Lemma add_user_persists_witness :
  (forall v, In v ([Sample.alice] ++ [Sample.bob]) -> User.id v <> ""%string) /\
  PoolFile.open Sample.uuids
    (snd (PoolFile.add_user [Sample.alice] Sample.bob (fun _ => None)))
    "pool.json"
  = Ok [Sample.alice; Sample.account "bob" None (Some 110%Q)] /\
  snd (PoolFile.add_user [Sample.alice] Sample.bob (fun _ => None)) "other.json"%string
  = None.
Proof.
  assert (Hid : forall v, In v ([Sample.alice] ++ [Sample.bob]) ->
                          User.id v <> ""%string)
    by (intros v [<- | [<- | []]]; discriminate).
  split; [exact Hid |].
  destruct (add_user_persists Sample.uuids [Sample.alice] Sample.bob
              (fun _ => None) Hid) as [_ [Hopen Hother]].
  split; [exact Hopen |]. apply Hother. discriminate.
Defined.

(** X26: [remove_user] keeps exactly the accounts whose name is not the
    one given, so every account of that name goes, not only the first;
    the pool it writes to ["pool.json"] is the one it keeps; removing
    the same name again changes nothing; and a name no account has
    leaves the pool as it was. *)
Theorem remove_user_all (users : Pool.t) (n : string) (files : PoolFile.fs) :
  (forall v, In v (fst (PoolFile.remove_user users n files))
             <-> In v users /\ User.name v <> n) /\
  snd (PoolFile.remove_user users n files) "pool.json"%string
  = Some (Pool.serialize (fst (PoolFile.remove_user users n files))) /\
  fst (PoolFile.remove_user (fst (PoolFile.remove_user users n files)) n
         (snd (PoolFile.remove_user users n files)))
  = fst (PoolFile.remove_user users n files) /\
  ((forall v, In v users -> User.name v <> n) ->
   fst (PoolFile.remove_user users n files) = users).
Proof.
  unfold PoolFile.remove_user, PoolFile.serialize, PoolFile.default_storage.
  simpl fst. simpl snd.
  assert (Hin : forall v,
             In v (filter (fun w => negb (String.eqb (User.name w) n)) users)
             <-> In v users /\ User.name v <> n).
  { intros v. rewrite filter_In, negb_true_iff, String.eqb_neq. reflexivity. }
  split; [exact Hin |]. split; [apply write_same |]. split.
  - apply kept_other_names. intros v Hv. apply Hin in Hv. tauto.
  - apply kept_other_names.
Qed.

(** X27: adding an account whose name no account of the pool has, and
    then removing that name, gives back the pool as it was before the
    two calls, and ["pool.json"] holds that pool. *)
Theorem add_then_remove (users : Pool.t) (u : User.t) (files : PoolFile.fs)
  (Hnew : forall v, In v users -> User.name v <> User.name u) :
  fst (PoolFile.remove_user (fst (PoolFile.add_user users u files))
         (User.name u) (snd (PoolFile.add_user users u files)))
  = users /\
  snd (PoolFile.remove_user (fst (PoolFile.add_user users u files))
         (User.name u) (snd (PoolFile.add_user users u files))) "pool.json"%string
  = Some (Pool.serialize users).
Proof.
  unfold PoolFile.remove_user, PoolFile.add_user, PoolFile.serialize,
    PoolFile.default_storage.
  simpl fst. simpl snd.
  assert (Hkeep : filter (fun v => negb (String.eqb (User.name v) (User.name u)))
                    (users ++ [u]) = users).
  { rewrite filter_app. simpl. rewrite String.eqb_refl. simpl.
    rewrite app_nil_r. apply kept_other_names. exact Hnew. }
  rewrite Hkeep. split; [reflexivity | apply write_same].
Qed.

Lemma add_then_remove_witness :
  (forall v, In v [Sample.alice; Sample.carol] ->
             User.name v <> User.name Sample.bob) /\
  fst (PoolFile.remove_user
         (fst (PoolFile.add_user [Sample.alice; Sample.carol] Sample.bob
                 (fun _ => None)))
         (User.name Sample.bob)
         (snd (PoolFile.add_user [Sample.alice; Sample.carol] Sample.bob
                 (fun _ => None))))
  = [Sample.alice; Sample.carol].
Proof.
  assert (Hnew : forall v, In v [Sample.alice; Sample.carol] ->
                           User.name v <> User.name Sample.bob)
    by (intros v [<- | [<- | []]]; discriminate).
  split; [exact Hnew |].
  exact (proj1 (add_then_remove [Sample.alice; Sample.carol] Sample.bob
                  (fun _ => None) Hnew)).
Defined.

(** ** Scheduling as time passes *)

Lemma filter_length_mono {A} (p q : A -> bool) (l : list A) :
  (forall a, In a l -> p a = true -> q a = true) ->
  (List.length (filter p l) <= List.length (filter q l))%nat.
Proof.
  induction l as [| a l IH]; intros H; simpl; [lia |].
  assert (IH' : (List.length (filter p l) <= List.length (filter q l))%nat)
    by (apply IH; intros b Hb; apply H; right; exact Hb).
  destruct (p a) eqn:Ep.
  - rewrite (H a (or_introl eq_refl) Ep). simpl. lia.
  - destruct (q a); simpl; lia.
Qed.

(** X28: with no placement in between, time only makes accounts ready:
    from a time [t1] to a later time [t2] every cooldown drops by
    [t2 - t1], an account ready at [t1] is ready at [t2], [ready] does
    not go down, and [any] stays true once it is true. *)
Theorem ready_monotone (users : Pool.t) (t1 t2 : Q)
  (Hlater : (t1 <= t2)%Q) :
  (forall u, (User.cooldown u t2 == User.cooldown u t1 - (t2 - t1))%Q) /\
  (forall u, Pool.is_ready t1 u = true -> Pool.is_ready t2 u = true) /\
  Pool.ready users t1 <= Pool.ready users t2 /\
  (Pool.any users t1 = true -> Pool.any users t2 = true).
Proof.
  assert (Hcd : forall u, (User.cooldown u t2 == User.cooldown u t1 - (t2 - t1))%Q)
    by (intros u; unfold User.cooldown; ring).
  assert (Hready : forall u, Pool.is_ready t1 u = true -> Pool.is_ready t2 u = true).
  { intros u H. apply Qleb_le in H. apply Qleb_le. rewrite Hcd. lra. }
  split; [exact Hcd |]. split; [exact Hready |]. split.
  - rewrite !ready_filter.
    pose proof (filter_length_mono (Pool.is_ready t1) (Pool.is_ready t2) users
                  (fun u _ => Hready u)).
    lia.
  - unfold Pool.any. rewrite !existsb_exists.
    intros [u [Hu Hr]]. exists u. auto.
Qed.

Lemma ready_monotone_witness :
  (100 <= 110)%Q /\
  Pool.ready [Sample.alice; Sample.bob; Sample.carol] 100 = 2 /\
  Pool.ready [Sample.alice; Sample.bob; Sample.carol] 110 = 3 /\
  Pool.ready [Sample.alice; Sample.bob; Sample.carol] 100
  <= Pool.ready [Sample.alice; Sample.bob; Sample.carol] 110.
Proof.
  assert (Hlater : (100 <= 110)%Q) by (intros H; discriminate H).
  split; [exact Hlater |]. split; [reflexivity |]. split; [reflexivity |].
  exact (proj1 (proj2 (proj2 (ready_monotone
                                [Sample.alice; Sample.bob; Sample.carol]
                                100 110 Hlater)))).
Defined.
